(** * scripts/add-dynamic-export.py

    A shallow embedding of the script that adds
    [export const dynamic = 'force-dynamic'] to the API routes that use
    [getServerSession], and the properties of its per-file editor
    [add_dynamic_export] and of its driver [main].

    - Python [str] values are lists of Unicode code points ([text]); the
      contents of a file are the text that [f.read()] returns in text mode.
    - The file system is a finite map from paths to nodes; standard output
      is the list of the arguments of the [print] calls, oldest first.
    - Python exceptions are values of [exn], threaded through a state and
      error monad [M], with [try_except] for the [try] statement.
    - What can fail around the files is an environment [env]: a [print]
      that standard output refuses, a write that fails after the file was
      opened. The script is embedded in an environment ([_in]); the
      definitions without [_in] are the script in the environment [ideal],
      where neither happens. *)

From Stdlib Require Import ZArith NArith Ascii String List Lia Bool.
From stdpp Require Import base option list gmap.

Local Open Scope N_scope.
Local Open Scope Z_scope.
Local Open Scope nat_scope.
Local Open Scope list_scope.

(** ** Text *)

Module Text.

(** A Python [str]: a sequence of code points. *)
Definition text : Type := list N.

(** An ASCII literal of the source, read as code points. *)
Definition str (s : String.string) : text :=
  List.map N_of_ascii (String.list_ascii_of_string s).

Definition LF : N := 10%N.

(** [t.startswith(p)]. *)
Fixpoint starts_with (p t : text) : bool :=
  match p, t with
  | [], _ => true
  | _ :: _, [] => false
  | a :: p', b :: t' => N.eqb a b && starts_with p' t'
  end.

(** [needle in hay] on [str]: some suffix of [hay] starts with [needle]. *)
Fixpoint contains (needle hay : text) : bool :=
  starts_with needle hay ||
  match hay with
  | [] => false
  | _ :: hay' => contains needle hay'
  end.

(** [needle] occurs in [hay] at index [i]. *)
Definition occurs_at (needle hay : text) (i : nat) : bool :=
  Nat.leb i (length hay) && starts_with needle (drop i hay).

(** The bound of a slice as Python normalises it: a negative index counts
    from the end, and the result is clamped to [0 .. len]. *)
Definition slice_index (len : nat) (i : Z) : nat :=
  let j := (if Z.ltb i 0 then i + Z.of_nat len else i)%Z in
  if Z.ltb j 0 then 0 else Nat.min (Z.to_nat j) len.

(** [t[:i]] and [t[i:]]. *)
Definition slice_to (t : text) (i : Z) : text := take (slice_index (length t) i) t.
Definition slice_from (t : text) (i : Z) : text := drop (slice_index (length t) i) t.

(** [str(n)] for a non-negative [int]. *)
Fixpoint uint_digits (d : Decimal.uint) : text :=
  match d with
  | Decimal.Nil => []
  | Decimal.D0 d => 48%N :: uint_digits d
  | Decimal.D1 d => 49%N :: uint_digits d
  | Decimal.D2 d => 50%N :: uint_digits d
  | Decimal.D3 d => 51%N :: uint_digits d
  | Decimal.D4 d => 52%N :: uint_digits d
  | Decimal.D5 d => 53%N :: uint_digits d
  | Decimal.D6 d => 54%N :: uint_digits d
  | Decimal.D7 d => 55%N :: uint_digits d
  | Decimal.D8 d => 56%N :: uint_digits d
  | Decimal.D9 d => 57%N :: uint_digits d
  end.

Definition str_of_nat (n : nat) : text := uint_digits (Nat.to_uint n).

End Text.

Import Text.

(** ** The fragment of [re] that the script uses *)

Module Re.

(** Character sets of one code point. *)
Inductive charset : Type :=
| Chr (c : N)        (* a literal character *)
| AnyChar            (* [.] under [re.DOTALL] *)
| Space.             (* [\s] of a [str] pattern *)

(** [\s] on a [str] pattern is [str.isspace] of the code point. *)
Definition is_space (c : N) : bool :=
  ((9 <=? c) && (c <=? 13) || (28 <=? c) && (c <=? 32)
   || (c =? 133) || (c =? 160) || (c =? 5760)
   || (8192 <=? c) && (c <=? 8202)
   || (c =? 8232) || (c =? 8233) || (c =? 8239) || (c =? 8287)
   || (c =? 12288))%N.

Definition in_charset (cs : charset) (c : N) : bool :=
  match cs with
  | Chr d => N.eqb d c
  | AnyChar => true
  | Space => is_space c
  end.

(** Patterns. A repetition is over a character set, at least [min] times,
    greedy ([*], [+]) or lazy ([*?]). *)
Inductive regex : Type :=
| Lit (t : text)
| Rep (cs : charset) (min : nat) (greedy : bool)
| Seq (r1 r2 : regex)
| Alt (r1 r2 : regex)
| Opt (r : regex)
| Group (n : nat) (r : regex).

(** A match object: the span of the whole match and of each group that took
    part in it. *)
Record match_obj : Type := MatchObj {
  m_start : nat;
  m_stop : nat;
  m_groups : list (nat * (nat * nat))
}.

Fixpoint group_span (gs : list (nat * (nat * nat))) (n : nat) : option (nat * nat) :=
  match gs with
  | [] => None
  | (k, sp) :: gs' => if Nat.eqb k n then Some sp else group_span gs' n
  end.

(** [m.end(n)]: [-1] for a group that did not take part in the match. *)
Definition m_end (m : match_obj) (n : nat) : Z :=
  match group_span (m_groups m) n with
  | Some (_, e) => Z.of_nat e
  | None => (-1)%Z
  end.

Section Backtracking.

(** The matcher tries the alternatives in the order of [re]'s backtracking
    and stops at the first one whose continuation succeeds. *)
Context {R : Type}.

Definition cont : Type := nat -> text -> list (nat * (nat * nat)) -> option R.

Definition or_else (a : option R) (b : unit -> option R) : option R :=
  match a with
  | Some x => Some x
  | None => b tt
  end.

(** Greedy repetition: one more character first, then stop. *)
Fixpoint rep_greedy (cs : charset) (min : nat) (pos : nat) (t : text)
    (k : nat -> text -> option R) : option R :=
  let stop (_ : unit) := match min with O => k pos t | S _ => None end in
  match t with
  | c :: t' =>
      if in_charset cs c
      then or_else (rep_greedy cs (Nat.pred min) (S pos) t' k) stop
      else stop tt
  | [] => stop tt
  end.

(** Lazy repetition: stop first, then one more character. *)
Fixpoint rep_lazy (cs : charset) (min : nat) (pos : nat) (t : text)
    (k : nat -> text -> option R) : option R :=
  let more (_ : unit) :=
    match t with
    | c :: t' => if in_charset cs c then rep_lazy cs (Nat.pred min) (S pos) t' k else None
    | [] => None
    end in
  match min with
  | O => or_else (k pos t) more
  | S _ => more tt
  end.

Fixpoint exec (r : regex) (pos : nat) (t : text) (gs : list (nat * (nat * nat)))
    (k : cont) {struct r} : option R :=
  match r with
  | Lit p =>
      if starts_with p t then k (pos + length p) (drop (length p) t) gs else None
  | Rep cs min true => rep_greedy cs min pos t (fun pos' t' => k pos' t' gs)
  | Rep cs min false => rep_lazy cs min pos t (fun pos' t' => k pos' t' gs)
  | Seq r1 r2 => exec r1 pos t gs (fun pos' t' gs' => exec r2 pos' t' gs' k)
  | Alt r1 r2 => or_else (exec r1 pos t gs k) (fun _ => exec r2 pos t gs k)
  | Opt r1 => or_else (exec r1 pos t gs k) (fun _ => k pos t gs)
  | Group n r1 => exec r1 pos t gs (fun pos' t' gs' => k pos' t' ((n, (pos, pos')) :: gs'))
  end.

End Backtracking.

(** [re.match] at one position. *)
Definition match_at (r : regex) (pos : nat) (t : text) : option match_obj :=
  exec r pos t [] (fun pos' _ gs => Some (MatchObj pos pos' gs)).

(** [re.search]: the match at the leftmost position that has one. *)
Fixpoint search_from (r : regex) (pos : nat) (t : text) : option match_obj :=
  match match_at r pos t with
  | Some m => Some m
  | None =>
      match t with
      | [] => None
      | _ :: t' => search_from r (S pos) t'
      end
  end.

Definition search (r : regex) (t : text) : option match_obj := search_from r 0 t.

(** [Matches r pos t gs pos' t' gs']: from position [pos], with [t] left to
    read and the groups [gs], the pattern [r] can read up to position [pos'],
    leaving [t'] and the groups [gs']. *)
Inductive Matches :
  regex -> nat -> text -> list (nat * (nat * nat)) ->
  nat -> text -> list (nat * (nat * nat)) -> Prop :=
| M_Lit p pos t' gs :
    Matches (Lit p) pos (p ++ t') gs (pos + length p) t' gs
| M_Rep cs min greedy u pos t' gs :
    Forall (fun c => in_charset cs c = true) u -> min <= length u ->
    Matches (Rep cs min greedy) pos (u ++ t') gs (pos + length u) t' gs
| M_Seq r1 r2 pos t gs pos1 t1 gs1 pos2 t2 gs2 :
    Matches r1 pos t gs pos1 t1 gs1 -> Matches r2 pos1 t1 gs1 pos2 t2 gs2 ->
    Matches (Seq r1 r2) pos t gs pos2 t2 gs2
| M_Alt_l r1 r2 pos t gs pos' t' gs' :
    Matches r1 pos t gs pos' t' gs' -> Matches (Alt r1 r2) pos t gs pos' t' gs'
| M_Alt_r r1 r2 pos t gs pos' t' gs' :
    Matches r2 pos t gs pos' t' gs' -> Matches (Alt r1 r2) pos t gs pos' t' gs'
| M_Opt_some r pos t gs pos' t' gs' :
    Matches r pos t gs pos' t' gs' -> Matches (Opt r) pos t gs pos' t' gs'
| M_Opt_none r pos t gs :
    Matches (Opt r) pos t gs pos t gs
| M_Group n r pos t gs pos' t' gs' :
    Matches r pos t gs pos' t' gs' ->
    Matches (Group n r) pos t gs pos' t' ((n, (pos, pos')) :: gs').

End Re.

Import Re.

(** ** Files, standard output and exceptions *)

Module Py.

(** The exceptions the script can meet. [FileNotFoundError] has a handler of
    its own; every other exception of class [Exception] is handled through
    its message [str(e)]. *)
Inductive exn : Type :=
| FileNotFoundError (path : text)
| OtherException (msg : text).

(** What [open(path, 'r', encoding='utf-8')] followed by [f.read()] gives:
    the decoded text, or an exception ([PermissionError],
    [IsADirectoryError], [UnicodeDecodeError], ...) with its message. *)
Inductive readable : Type :=
| Content (c : text)
| ReadFails (msg : text).

(** A node of the file system. [on_write] is the message of the exception
    that [open(path, 'w')] raises on it, if it raises one; a write that is
    not refused replaces the whole content. *)
Record node : Type := Node {
  on_read : readable;
  on_write : option text
}.

(** The world of a run: the files by path, the arguments of the [print]
    calls so far, and the paths given to [open(_, 'w')] so far. *)
Record world : Type := World {
  fs : gmap text node;
  stdout : list text;
  opened_w : list text
}.

Inductive result (A : Type) : Type :=
| Return (a : A)
| Raise (e : exn).
Arguments Return {A} a.
Arguments Raise {A} e.

Definition M (A : Type) : Type := world -> result A * world.

Definition ret {A} (a : A) : M A := fun w => (Return a, w).

Definition bind {A B} (m : M A) (f : A -> M B) : M B :=
  fun w =>
    match m w with
    | (Return a, w') => f a w'
    | (Raise e, w') => (Raise e, w')
    end.

(** [try: body  except ... as e: handler e]. *)
Definition try_except {A} (body : M A) (handler : exn -> M A) : M A :=
  fun w =>
    match body w with
    | (Return a, w') => (Return a, w')
    | (Raise e, w') => handler e w'
    end.

(** What can go wrong around the files. [print_raises line] is the message
    of the exception that [print(line)] raises, if it raises one: a
    [UnicodeEncodeError] when the encoding of standard output lacks a
    character of the line. [write_cut path new_content] tells whether a write
    of [new_content] to [path] fails after the file was opened, and so
    truncated: it gives what the file reads as afterwards (the text that
    reached it, or a decoding error) and the message of the exception. *)
Record env : Type := Env {
  print_raises : text -> option text;
  write_cut : text -> text -> option (readable * text)
}.

(** The environment in which standard output takes every line and a write
    that is not refused at open is done whole. *)
Definition ideal : env := Env (fun _ => None) (fun _ _ => None).

(** [print(line)]: one more line on standard output, or the exception
    that standard output raises on it. *)
Definition print_in (E : env) (line : text) : M unit :=
  fun w =>
    match print_raises E line with
    | Some msg => (Raise (OtherException msg), w)
    | None => (Return tt, World (fs w) (stdout w ++ [line]) (opened_w w))
    end.

(** [print(line)] on a standard output that takes every line. *)
Definition print : text -> M unit := print_in ideal.

(** [with open(path, 'r', encoding='utf-8') as f: f.read()]. *)
Definition read_file (path : text) : M text :=
  fun w =>
    match fs w !! path with
    | None => (Raise (FileNotFoundError path), w)
    | Some n =>
        match on_read n with
        | Content c => (Return c, w)
        | ReadFails msg => (Raise (OtherException msg), w)
        end
    end.

(** [with open(path, 'w', encoding='utf-8') as f: f.write(new_content)].
    [open] raises on a node that refuses it and leaves the file as it was;
    otherwise the file is opened (a path with no node is created) and
    truncated, and the write puts the whole text in it, or fails on the way
    and leaves what [write_cut] tells. *)
Definition write_file_in (E : env) (path : text) (new_content : text) : M unit :=
  fun w =>
    let log := opened_w w ++ [path] in
    match fs w !! path with
    | Some (Node _ (Some msg)) => (Raise (OtherException msg), World (fs w) (stdout w) log)
    | _ =>
        match write_cut E path new_content with
        | Some (rest, msg) =>
            (Raise (OtherException msg),
             World (<[path := Node rest None]> (fs w)) (stdout w) log)
        | None =>
            (Return tt,
             World (<[path := Node (Content new_content) None]> (fs w)) (stdout w) log)
        end
    end.

(** The same where a write that is not refused at open is done whole. *)
Definition write_file : text -> text -> M unit := write_file_in ideal.

(** [for x in l: body], with the variables the body assigns as [s]. *)
Fixpoint for_in {A S} (l : list A) (body : A -> S -> M S) (s : S) : M S :=
  match l with
  | [] => ret s
  | x :: l' => bind (body x s) (for_in l' body)
  end.

End Py.

Import Py.

#[export] Instance M_bind : MBind M := fun A B f m => bind m f.

(** ** The script *)

Definition API_ROUTES : list text := [
  str "app/api/credits/usage/route.ts";
  str "app/api/credits/transactions/route.ts";
  str "app/api/settings/route.ts";
  str "app/api/purchases/route.ts";
  str "app/api/projects/route.ts";
  str "app/api/projects/[id]/route.ts";
  str "app/api/personas/route.ts";
  str "app/api/personas/[id]/route.ts";
  str "app/api/personas/test-style/route.ts";
  str "app/api/personas/enrich-style/route.ts";
  str "app/api/contents/[id]/route.ts";
  str "app/api/stripe/create-session/route.ts";
  str "app/api/stripe/confirm/route.ts";
  str "app/api/stripe/manual-complete/route.ts";
  str "app/api/generate-advanced/route.ts"
].

Definition DYNAMIC_EXPORT : text :=
  [LF] ++ str "// Force dynamic rendering (required for NextAuth session)" ++ [LF]
  ++ str "export const dynamic = 'force-dynamic'" ++ [LF].

(** The pattern of the insertion point, searched with [re.DOTALL]: group 1
    is [import\s+.*?\n], group 2 is [\n*], group 3 is
    [export\s+(async\s+)?function|export\s+const], group 4 is [async\s+]. *)
Definition export_pattern : regex :=
  Alt (Seq (Lit (str "export"))
      (Seq (Rep Space 1 true)
      (Seq (Opt (Group 4 (Seq (Lit (str "async")) (Rep Space 1 true))))
           (Lit (str "function")))))
      (Seq (Lit (str "export"))
      (Seq (Rep Space 1 true)
           (Lit (str "const")))).

Definition import_pattern : regex :=
  Seq (Group 1 (Seq (Lit (str "import"))
               (Seq (Rep Space 1 true)
               (Seq (Rep AnyChar 0 false)
                    (Lit [LF])))))
 (Seq (Group 2 (Rep (Chr LF) 0 true))
      (Group 3 export_pattern)).

(** The lines the script prints about one file. *)
Definition msg_already (file_path : text) : text :=
  str "  " ++ [9675%N] ++ str " " ++ file_path ++ str " - already has dynamic export".
Definition msg_not_applicable (file_path : text) : text :=
  str "  " ++ [9675%N] ++ str " " ++ file_path ++ str " - doesn't use getServerSession, skipping".
Definition msg_added (file_path : text) : text :=
  str "  " ++ [10003%N] ++ str " " ++ file_path ++ str " - added dynamic export".
Definition msg_no_insertion_point (file_path : text) : text :=
  str "  " ++ [10007%N] ++ str " " ++ file_path ++ str " - couldn't find insertion point".
Definition msg_not_found (file_path : text) : text :=
  str "  " ++ [10007%N] ++ str " " ++ file_path ++ str " - file not found".
Definition msg_error (file_path e : text) : text :=
  str "  " ++ [10007%N] ++ str " " ++ file_path ++ str " - error: " ++ e.

Section Script.

(** The script runs in an environment [E]. *)
Variable E : env.

(** The body of the [try] statement of [add_dynamic_export]. *)
Definition add_dynamic_export_try_in (file_path : text) : M bool :=
  content ← read_file file_path;
  if contains (str "export const dynamic") content then
    print_in E (msg_already file_path) ;;
    ret false
  else if negb (contains (str "getServerSession") content) then
    print_in E (msg_not_applicable file_path) ;;
    ret false
  else
    match search import_pattern content with
    | Some m =>
        let new_content :=
          slice_to content (m_end m 1) ++ DYNAMIC_EXPORT ++ slice_from content (m_end m 1) in
        write_file_in E file_path new_content ;;
        print_in E (msg_added file_path) ;;
        ret true
    | None =>
        print_in E (msg_no_insertion_point file_path) ;;
        ret false
    end.

Definition add_dynamic_export_in (file_path : text) : M bool :=
  try_except (add_dynamic_export_try_in file_path)
    (fun e =>
       match e with
       | FileNotFoundError _ =>
           print_in E (msg_not_found file_path) ;;
           ret false
       | OtherException msg =>
           print_in E (msg_error file_path msg) ;;
           ret false
       end).

Definition main_in : M unit :=
  print_in E (str "Adding dynamic export to API routes..." ++ [LF]) ;;
  updated_count ← for_in API_ROUTES
      (fun route updated_count =>
         updated ← add_dynamic_export_in route;
         ret (if updated : bool then updated_count + 1 else updated_count))
      0;
  print_in E ([LF] ++ str "Done! Updated " ++ str_of_nat updated_count ++ str " files.").

End Script.

(** The script where standard output takes every line and a write that is
    not refused at open is done whole. *)
Definition add_dynamic_export_try : text -> M bool := add_dynamic_export_try_in ideal.
Definition add_dynamic_export : text -> M bool := add_dynamic_export_in ideal.
Definition main : M unit := main_in ideal.

(** ** Notions used in the statements *)

(** The substrings that [add_dynamic_export] tests for. *)
Definition marker : text := str "export const dynamic".
Definition trigger : text := str "getServerSession".

(** The text that a successful call writes back. *)
Definition spliced (content : text) (m : match_obj) : text :=
  slice_to content (m_end m 1) ++ DYNAMIC_EXPORT ++ slice_from content (m_end m 1).

(** A world that differs from [w] by one more printed line. *)
Definition printed (w : world) (line : text) : world :=
  World (fs w) (stdout w ++ [line]) (opened_w w).

(** The insertion preconditions of a path: the file can be read and written,
    its text lacks the marker, has the trigger, and the pattern is found. *)
Definition eligible (w : world) (file_path : text) : bool :=
  match fs w !! file_path with
  | Some (Node (Content content) None) =>
      negb (contains marker content) && contains trigger content
      && match search import_pattern content with Some _ => true | None => false end
  | _ => false
  end.

Definition header_line : text := str "Adding dynamic export to API routes..." ++ [LF].
Definition done_line (updated_count : nat) : text :=
  [LF] ++ str "Done! Updated " ++ str_of_nat updated_count ++ str " files.".

(** The body of the loop of [main]. *)
Definition loop_body (route : text) (updated_count : nat) : M nat :=
  updated ← add_dynamic_export route;
  ret (if updated : bool then updated_count + 1 else updated_count).

(** The two lines of the inserted text. *)
Definition comment_line : text :=
  str "// Force dynamic rendering (required for NextAuth session)".
Definition export_line : text := str "export const dynamic = 'force-dynamic'".

(** The export declarations that the pattern accepts after the blank lines:
    [export], white space, and [function], [async] white space [function],
    or [const]. *)
Definition export_head (t : text) : Prop :=
  exists ws rest,
    ws <> [] /\ Forall (fun c => is_space c = true) ws
    /\ (t = str "export" ++ ws ++ str "function" ++ rest
        \/ (exists ws', ws' <> [] /\ Forall (fun c => is_space c = true) ws'
              /\ t = str "export" ++ ws ++ str "async" ++ ws' ++ str "function" ++ rest)
        \/ t = str "export" ++ ws ++ str "const" ++ rest).

(** The index of the first export declaration that [export_pattern] accepts. *)
Definition first_export (content : text) : option nat :=
  m_start <$> search export_pattern content.

(** The indices at which [needle] occurs in [hay]. *)
Definition occurrences (needle hay : text) : list nat :=
  List.filter (occurs_at needle hay) (seq 0 (S (length hay))).

(** ** Sample route files *)

Definition lines (l : list String.string) : text :=
  List.concat (List.map (fun s => str s ++ [LF]) l).

Definition settings_route : text := str "app/api/settings/route.ts".
Definition other_file : text := str "app/api/health/route.ts".

(** A route that uses the session, with its imports on top. *)
Definition plain_route : text := lines [
  "import { getServerSession } from 'next-auth'";
  "import { authOptions } from '@/lib/auth'";
  "";
  "export async function GET() {";
  "  return getServerSession(authOptions)";
  "}" ]%string.

(** The same route with the inserted text after its imports. *)
Definition updated_route : text := lines [
  "import { getServerSession } from 'next-auth'";
  "import { authOptions } from '@/lib/auth'";
  "";
  "// Force dynamic rendering (required for NextAuth session)";
  "export const dynamic = 'force-dynamic'";
  "";
  "export async function GET() {";
  "  return getServerSession(authOptions)";
  "}" ]%string.

(** A route that already exports [dynamic], with another value. *)
Definition other_value_route : text := lines [
  "import { getServerSession } from 'next-auth'";
  "";
  "export const dynamic = 'auto'";
  "export async function GET() {}" ]%string.

(** A route that names the export in a comment only. *)
Definition comment_route : text := lines [
  "import { getServerSession } from 'next-auth'";
  "// TODO: export const dynamic is missing here";
  "export async function GET() {}" ]%string.

(** A route that already exports [dynamic] and does not use the session. *)
Definition static_route : text := lines [
  "export const dynamic = 'force-static'";
  "export async function GET() {}" ]%string.

(** A route that does not use the session. *)
Definition public_route : text := lines [
  "import { NextResponse } from 'next/server'";
  "";
  "export async function GET() {}" ]%string.

(** A route that uses the session through [require], with no import. *)
Definition require_route : text := lines [
  "const { getServerSession } = require('next-auth')";
  "";
  "export async function GET() {}" ]%string.

(** A route whose first export comes before its import. *)
Definition export_first_route : text := lines [
  "export const runtime = 'nodejs'";
  "import { getServerSession } from 'next-auth'";
  "";
  "export async function GET() {}" ]%string.

(** A route with a type export between the imports and the handler. *)
Definition type_export_route : text := lines [
  "import { getServerSession } from 'next-auth'";
  "export type Params = { id: string }";
  "";
  "export async function GET() {}" ]%string.

(** What the script makes of the last two routes. *)
Definition export_first_route_after : text :=
  lines [ "export const runtime = 'nodejs'";
          "import { getServerSession } from 'next-auth'" ]%string
  ++ DYNAMIC_EXPORT
  ++ lines [ ""; "export async function GET() {}" ]%string.

Definition type_export_route_after : text :=
  lines [ "import { getServerSession } from 'next-auth'";
          "export type Params = { id: string }" ]%string
  ++ DYNAMIC_EXPORT
  ++ lines [ ""; "export async function GET() {}" ]%string.

(** A world with an eligible route, a route that cannot be written, a route
    without the trigger, a route with the marker, and a file that is not in
    the list. *)
Definition sample_world : world :=
  World (<[ settings_route := Node (Content plain_route) None ]>
        (<[ str "app/api/purchases/route.ts" := Node (Content plain_route) (Some (str "[Errno 13] Permission denied")) ]>
        (<[ str "app/api/projects/route.ts" := Node (Content public_route) None ]>
        (<[ str "app/api/personas/route.ts" := Node (Content other_value_route) None ]>
        (<[ other_file := Node (Content plain_route) None ]> ∅)))))
        [] [].

(** A world with one file. *)
Definition one_file (path : text) (n : node) : world := World {[ path := n ]} [] [].

(** ** Notions used in the further properties *)

(** The call on [file_path] run alone on the files of [w], with nothing
    printed and no file opened before. *)
Definition alone (w : world) (file_path : text) : result bool * world :=
  add_dynamic_export file_path (World (fs w) [] []).

(** The checks that come before [open(file_path, 'w')]: the file can be
    read, its text lacks the marker, has the trigger, and the pattern is
    found. *)
Definition attemptable (w : world) (file_path : text) : bool :=
  match fs w !! file_path with
  | Some (Node (Content content) _) =>
      negb (contains marker content) && contains trigger content
      && match search import_pattern content with Some _ => true | None => false end
  | _ => false
  end.

(** [n'] is a node of the same kind as [n]: it can be written if [n] can,
    it is [n] itself if [n] cannot be read, and it can be read if [n] can. *)
Definition same_kind (n n' : node) : Prop :=
  on_write n' = on_write n
  /\ match on_read n with
     | ReadFails _ => n' = n
     | Content _ => exists content', on_read n' = Content content'
     end.

(** The files of [w'] are those of [w], each of the same kind. *)
Definition same_files (w w' : world) : Prop :=
  forall q,
    match fs w !! q, fs w' !! q with
    | None, None => True
    | Some n, Some n' => same_kind n n'
    | _, _ => False
    end.

(** The shape of a text in which [import_pattern] can match. *)
Definition has_insertion_point (content : text) : Prop :=
  exists pre ws body nls decl,
    content = (pre ++ str "import" ++ ws ++ body ++ [LF]) ++ nls ++ decl
    /\ ws <> [] /\ Forall (fun c => is_space c = true) ws
    /\ Forall (fun c => c = LF) nls
    /\ export_head decl.

(** A route that cannot be written. *)
Definition read_only_node : node :=
  Node (Content plain_route) (Some (str "[Errno 13] Permission denied")).

(** A call that returned [True]. *)
Definition returned_true (r : result bool) : bool :=
  match r with
  | Return true => true
  | _ => false
  end.

(** The match of [import_pattern] in [plain_route]. *)
Definition plain_route_match : match_obj :=
  MatchObj 0 108 [(3, (87, 108)); (4, (94, 100)); (2, (86, 87)); (1, (0, 86))].

(** What one call does, read off the node of its path: whether it returns
    [True], the line it prints, the paths it opens for writing, and the node
    it writes, if it writes one. *)
Record effect : Type := Effect {
  e_updated : bool;
  e_line : text;
  e_opened : list text;
  e_node : option node
}.

Definition effect_of (o : option node) (file_path : text) : effect :=
  match o with
  | None => Effect false (msg_not_found file_path) [] None
  | Some (Node (ReadFails msg) _) => Effect false (msg_error file_path msg) [] None
  | Some (Node (Content content) wr) =>
      if contains marker content then Effect false (msg_already file_path) [] None
      else if negb (contains trigger content)
      then Effect false (msg_not_applicable file_path) [] None
      else
        match search import_pattern content, wr with
        | None, _ => Effect false (msg_no_insertion_point file_path) [] None
        | Some m, Some msg => Effect false (msg_error file_path msg) [file_path] None
        | Some m, None =>
            Effect true (msg_added file_path) [file_path]
                   (Some (Node (Content (spliced content m)) None))
        end
  end.

(** The files after an effect at [file_path]. *)
Definition apply_node (file_path : text) (o : option node) (m : gmap text node) : gmap text node :=
  match o with
  | Some n => <[file_path := n]> m
  | None => m
  end.

(** ** Environments with faults *)

(** The message of Python's [UnicodeEncodeError] for the [ascii] codec: the
    first run of characters that it cannot encode, with its position. *)
Definition hex_digit (d : N) : N := (if d <? 10 then 48 + d else 87 + d)%N.

Fixpoint hex (digits : nat) (c : N) : text :=
  match digits with
  | O => []
  | S k => hex k (c / 16) ++ [hex_digit (c mod 16)]
  end.

Definition escape_char (c : N) : text :=
  if (c <? 256)%N then [92; 120]%N ++ hex 2 c
  else if (c <? 65536)%N then [92; 117]%N ++ hex 4 c
  else [92; 85]%N ++ hex 8 c.

Fixpoint non_ascii_run (line : text) : nat :=
  match line with
  | c :: line' => if (c <? 128)%N then 0 else S (non_ascii_run line')
  | [] => 0
  end.

Fixpoint ascii_error_from (line : text) (i : nat) : option text :=
  match line with
  | [] => None
  | c :: line' =>
      if (c <? 128)%N then ascii_error_from line' (S i)
      else
        Some (match non_ascii_run line' with
              | O =>
                  str "'ascii' codec can't encode character '" ++ escape_char c
                  ++ str "' in position " ++ str_of_nat i
              | S k =>
                  str "'ascii' codec can't encode characters in position "
                  ++ str_of_nat i ++ str "-" ++ str_of_nat (i + S k)
              end ++ str ": ordinal not in range(128)")
  end.

(** A standard output whose encoding is ASCII; writes are done whole. *)
Definition ascii_stdout : env :=
  Env (fun line => ascii_error_from line 0) (fun _ _ => None).

(** A disk that takes [kept] characters of a write to [path] and then is
    full; standard output takes every line. *)
Definition disk_full (path : text) (kept : nat) : env :=
  Env (fun _ => None)
      (fun p new_content =>
         if decide (p = path)
         then Some (Content (take kept new_content),
                    str "[Errno 28] No space left on device")
         else None).

(** Standard output takes every line. *)
Definition stdout_accepts (E : env) : Prop := forall line, print_raises E line = None.

(** The insertion preconditions hold and the write is done whole. *)
Definition completes (E : env) (w : world) (file_path : text) : bool :=
  match fs w !! file_path with
  | Some (Node (Content content) None) =>
      negb (contains marker content) && contains trigger content
      && match search import_pattern content with
         | Some m =>
             match write_cut E file_path (spliced content m) with
             | Some _ => false
             | None => true
             end
         | None => false
         end
  | _ => false
  end.

(** The insertion preconditions hold and the write fails after the file was
    opened. *)
Definition cut_short (E : env) (w : world) (file_path : text) : bool :=
  match fs w !! file_path with
  | Some (Node (Content content) None) =>
      negb (contains marker content) && contains trigger content
      && match search import_pattern content with
         | Some m =>
             match write_cut E file_path (spliced content m) with
             | Some _ => true
             | None => false
             end
         | None => false
         end
  | _ => false
  end.

(** What one call does in [E], when standard output takes its line. *)
Definition effect_in (E : env) (o : option node) (file_path : text) : effect :=
  match o with
  | None => Effect false (msg_not_found file_path) [] None
  | Some (Node (ReadFails msg) _) => Effect false (msg_error file_path msg) [] None
  | Some (Node (Content content) wr) =>
      if contains marker content then Effect false (msg_already file_path) [] None
      else if negb (contains trigger content)
      then Effect false (msg_not_applicable file_path) [] None
      else
        match search import_pattern content, wr with
        | None, _ => Effect false (msg_no_insertion_point file_path) [] None
        | Some m, Some msg => Effect false (msg_error file_path msg) [file_path] None
        | Some m, None =>
            match write_cut E file_path (spliced content m) with
            | Some (rest, msg) =>
                Effect false (msg_error file_path msg) [file_path] (Some (Node rest None))
            | None =>
                Effect true (msg_added file_path) [file_path]
                       (Some (Node (Content (spliced content m)) None))
            end
        end
  end.

(** The body of the loop of [main_in]. *)
Definition loop_body_in (E : env) (route : text) (updated_count : nat) : M nat :=
  updated ← add_dynamic_export_in E route;
  ret (if updated : bool then updated_count + 1 else updated_count).

(** * Properties *)

Ltac run_script :=
  unfold add_dynamic_export, add_dynamic_export_in, try_except,
    add_dynamic_export_try, add_dynamic_export_try_in, write_file, write_file_in,
    mbind, M_bind, bind, read_file, print, print_in, ideal, ret, printed, spliced,
    marker, trigger in *;
  simpl.

Ltac invert_matches :=
  repeat match goal with
  | H : Matches (Seq _ _) _ _ _ _ _ _ |- _ => inversion H; clear H; subst
  | H : Matches (Group _ _) _ _ _ _ _ _ |- _ => inversion H; clear H; subst
  | H : Matches (Lit _) _ _ _ _ _ _ |- _ => inversion H; clear H; subst
  | H : Matches (Rep _ _ _) _ _ _ _ _ _ |- _ => inversion H; clear H; subst
  | H : Matches (Alt _ _) _ _ _ _ _ _ |- _ => inversion H; clear H; subst
  | H : Matches (Opt _) _ _ _ _ _ _ |- _ => inversion H; clear H; subst
  end.

(** ** Substrings and slices *)

Section TextFacts.

Implicit Types (p t a b needle hay : text).

Lemma starts_with_app p r : starts_with p (p ++ r) = true.
Proof.
  induction p as [|x p IH]; simpl; [done|].
  by rewrite N.eqb_refl, IH.
Qed.

Lemma starts_with_inv p t : starts_with p t = true -> exists r, t = p ++ r.
Proof.
  revert t. induction p as [|x p IH]; intros t H; simpl in *.
  - by exists t.
  - destruct t as [|y t]; [done|].
    apply andb_true_iff in H as [Hxy Hrest].
    apply N.eqb_eq in Hxy as ->.
    destruct (IH _ Hrest) as [r ->]. by exists r.
Qed.

Lemma starts_with_length p t : starts_with p t = true -> length p <= length t.
Proof.
  intros H. destruct (starts_with_inv _ _ H) as [r ->].
  rewrite length_app. lia.
Qed.

Lemma contains_here needle hay : starts_with needle hay = true -> contains needle hay = true.
Proof. intros H. destruct hay; simpl; by rewrite H. Qed.

Lemma contains_app needle a b : contains needle (a ++ needle ++ b) = true.
Proof.
  induction a as [|x a IH]; simpl.
  - apply contains_here, starts_with_app.
  - rewrite IH. apply orb_true_r.
Qed.

Lemma contains_inv needle hay :
  contains needle hay = true -> exists a b, hay = a ++ needle ++ b.
Proof.
  induction hay as [|x hay IH]; simpl; intros H.
  - rewrite orb_false_r in H.
    destruct (starts_with_inv _ _ H) as [r ->]. by exists [], r.
  - apply orb_true_iff in H as [H|H].
    + destruct (starts_with_inv _ _ H) as [r Hr]. exists [], r. by rewrite Hr.
    + destruct (IH H) as (a & b & ->). by exists (x :: a), b.
Qed.

(** A substring of a part is a substring of the whole. *)
Lemma contains_within needle a t b :
  contains needle t = true -> contains needle (a ++ t ++ b) = true.
Proof.
  intros H. destruct (contains_inv _ _ H) as (a' & b' & ->).
  replace (a ++ (a' ++ needle ++ b') ++ b) with ((a ++ a') ++ needle ++ (b' ++ b))
    by (by rewrite <- !app_assoc).
  apply contains_app.
Qed.

Lemma contains_trans needle t hay :
  contains needle t = true -> contains t hay = true -> contains needle hay = true.
Proof.
  intros H1 H2. destruct (contains_inv _ _ H2) as (a & b & ->).
  by apply contains_within.
Qed.

Lemma not_contains_app_l needle a b :
  contains needle (a ++ b) = false -> contains needle a = false.
Proof.
  intros H. destruct (contains needle a) eqn:E; [|done].
  rewrite <- H. symmetry.
  replace (a ++ b) with ([] ++ a ++ b) by done. by apply contains_within.
Qed.

Lemma not_contains_app_r needle a b :
  contains needle (a ++ b) = false -> contains needle b = false.
Proof.
  intros H. destruct (contains needle b) eqn:E; [|done].
  rewrite <- H. symmetry.
  replace (a ++ b) with (a ++ b ++ []) by (by rewrite app_nil_r).
  by apply contains_within.
Qed.

Lemma occurs_at_app needle a b : occurs_at needle (a ++ needle ++ b) (length a) = true.
Proof.
  unfold occurs_at. rewrite drop_app_length, starts_with_app, andb_true_r.
  apply Nat.leb_le. rewrite length_app. lia.
Qed.

Lemma occurs_at_inv needle hay i :
  occurs_at needle hay i = true ->
  exists a b, hay = a ++ needle ++ b /\ length a = i.
Proof.
  unfold occurs_at. intros H. apply andb_true_iff in H as [Hi H].
  apply Nat.leb_le in Hi.
  destruct (starts_with_inv _ _ H) as [r Hr].
  exists (take i hay), r. split.
  - by rewrite <- Hr, take_drop.
  - rewrite length_take. lia.
Qed.

(** The two slices at one bound make up the text, whatever the bound. *)
Lemma slice_to_from t (i : Z) : slice_to t i ++ slice_from t i = t.
Proof. apply take_drop. Qed.

Lemma length_slice_to t (i : Z) : length (slice_to t i) = slice_index (length t) i.
Proof.
  unfold slice_to. rewrite length_take.
  unfold slice_index. repeat case_match; lia.
Qed.

End TextFacts.

Lemma slice_at_app (A B : text) :
  slice_to (A ++ B) (Z.of_nat (length A)) = A
  /\ slice_from (A ++ B) (Z.of_nat (length A)) = B.
Proof.
  unfold slice_to, slice_from.
  assert (slice_index (length (A ++ B)) (Z.of_nat (length A)) = length A) as ->.
  { unfold slice_index. rewrite length_app. repeat case_match; lia. }
  by rewrite take_app_length, drop_app_length.
Qed.

(** ** The cases of [add_dynamic_export] *)

Section Cases.

Variables (w : world) (file_path : text).

Lemma case_not_found :
  fs w !! file_path = None ->
  add_dynamic_export file_path w = (Return false, printed w (msg_not_found file_path)).
Proof. intros Hfs. run_script. by rewrite Hfs. Qed.

Lemma case_read_fails n msg :
  fs w !! file_path = Some n -> on_read n = ReadFails msg ->
  add_dynamic_export file_path w = (Return false, printed w (msg_error file_path msg)).
Proof. intros Hfs Hn. run_script. by rewrite Hfs, Hn. Qed.

Lemma case_already n content :
  fs w !! file_path = Some n -> on_read n = Content content ->
  contains marker content = true ->
  add_dynamic_export file_path w = (Return false, printed w (msg_already file_path)).
Proof. intros Hfs Hn Hm. run_script. by rewrite Hfs, Hn, Hm. Qed.

Lemma case_not_applicable n content :
  fs w !! file_path = Some n -> on_read n = Content content ->
  contains marker content = false ->
  contains trigger content = false ->
  add_dynamic_export file_path w = (Return false, printed w (msg_not_applicable file_path)).
Proof. intros Hfs Hn Hm Ht. run_script. by rewrite Hfs, Hn, Hm, Ht. Qed.

Lemma case_no_insertion_point n content :
  fs w !! file_path = Some n -> on_read n = Content content ->
  contains marker content = false ->
  contains trigger content = true ->
  search import_pattern content = None ->
  add_dynamic_export file_path w = (Return false, printed w (msg_no_insertion_point file_path)).
Proof. intros Hfs Hn Hm Ht Hs. run_script. by rewrite Hfs, Hn, Hm, Ht, Hs. Qed.

Lemma case_write_refused n content m msg :
  fs w !! file_path = Some n -> on_read n = Content content ->
  contains marker content = false ->
  contains trigger content = true ->
  search import_pattern content = Some m ->
  on_write n = Some msg ->
  add_dynamic_export file_path w =
    (Return false,
     World (fs w) (stdout w ++ [msg_error file_path msg]) (opened_w w ++ [file_path])).
Proof.
  intros Hfs Hn Hm Ht Hs Hw. run_script.
  rewrite Hfs, Hn, Hm, Ht, Hs. simpl. rewrite Hfs.
  destruct n as [r o]; simpl in *. by subst o.
Qed.

Lemma case_added n content m :
  fs w !! file_path = Some n -> on_read n = Content content ->
  contains marker content = false ->
  contains trigger content = true ->
  search import_pattern content = Some m ->
  on_write n = None ->
  add_dynamic_export file_path w =
    (Return true,
     World (<[file_path := Node (Content (spliced content m)) None]> (fs w))
           (stdout w ++ [msg_added file_path]) (opened_w w ++ [file_path])).
Proof.
  intros Hfs Hn Hm Ht Hs Hw. run_script.
  rewrite Hfs, Hn, Hm, Ht, Hs. simpl. rewrite Hfs.
  destruct n as [r o]; simpl in *. by subst o.
Qed.

End Cases.

(** ** What one call does to the world *)

Lemma eligible_ext w w' q : fs w' !! q = fs w !! q -> eligible w' q = eligible w q.
Proof. unfold eligible. by intros ->. Qed.

Lemma marker_in_DYNAMIC_EXPORT : contains marker DYNAMIC_EXPORT = true.
Proof. vm_compute. reflexivity. Qed.

Lemma spliced_has_marker content m : contains marker (spliced content m) = true.
Proof. unfold spliced. apply contains_within, marker_in_DYNAMIC_EXPORT. Qed.

Lemma length_spliced content m :
  length (spliced content m) = length content + length DYNAMIC_EXPORT.
Proof.
  unfold spliced. rewrite !length_app.
  rewrite <- (slice_to_from content (m_end m 1)) at 3. rewrite length_app. lia.
Qed.

Lemma spliced_changes content m : spliced content m <> content.
Proof.
  intros H. apply (f_equal length) in H. rewrite length_spliced in H.
  assert (0 < length DYNAMIC_EXPORT) by (vm_compute; lia). lia.
Qed.

Lemma add_dynamic_export_summary w p :
  exists w' line,
    add_dynamic_export p w = (Return (eligible w p), w')
    /\ stdout w' = stdout w ++ [line]
    /\ (forall q, q <> p -> fs w' !! q = fs w !! q)
    /\ (eligible w p = false -> fs w' = fs w)
    /\ (eligible w p = true ->
        exists n content m,
          fs w !! p = Some n /\ on_read n = Content content
          /\ contains marker content = false
          /\ search import_pattern content = Some m
          /\ fs w' = <[p := Node (Content (spliced content m)) None]> (fs w))
    /\ (opened_w w' = opened_w w \/ opened_w w' = opened_w w ++ [p]).
Proof.
  unfold eligible.
  destruct (fs w !! p) as [[r o]|] eqn:Hfs.
  2: { eexists _, _. rewrite (case_not_found _ _ Hfs). simpl. naive_solver. }
  destruct r as [content|msg].
  2: { eexists _, _. rewrite (case_read_fails _ _ _ msg Hfs eq_refl). simpl. naive_solver. }
  destruct (contains marker content) eqn:Hm.
  { eexists _, _. rewrite (case_already _ _ _ content Hfs eq_refl Hm).
    simpl. destruct o; naive_solver. }
  destruct (contains trigger content) eqn:Ht.
  2: { eexists _, _. rewrite (case_not_applicable _ _ _ content Hfs eq_refl Hm Ht).
       simpl. destruct o; naive_solver. }
  destruct (search import_pattern content) as [m|] eqn:Hs.
  2: { eexists _, _. rewrite (case_no_insertion_point _ _ _ content Hfs eq_refl Hm Ht Hs).
       simpl. destruct o; naive_solver. }
  destruct o as [msg|].
  { eexists _, _. rewrite (case_write_refused _ _ _ content m msg Hfs eq_refl Hm Ht Hs eq_refl).
    simpl. naive_solver. }
  eexists _, _. rewrite (case_added _ _ _ content m Hfs eq_refl Hm Ht Hs eq_refl).
  cbn [fs stdout opened_w]. split_and!; try done.
  - intros q Hq. cbn [fs]. by rewrite lookup_insert_ne.
  - intros _. by exists (Node (Content content) None), content, m.
  - by right.
Qed.

(** A file that was just rewritten differs from before and is no longer
    eligible. *)
Lemma rewritten_file w w' p :
  add_dynamic_export p w = (Return true, w') ->
  fs w' !! p <> fs w !! p /\ eligible w' p = false.
Proof.
  intros Hrun.
  destruct (add_dynamic_export_summary w p) as (w1 & line & Heq & _ & _ & _ & Hyes & _).
  rewrite Hrun in Heq. injection Heq as Hb <-.
  destruct (Hyes (eq_sym Hb)) as (n & content & m & Hfs & Hn & _ & _ & Hfs').
  unfold eligible. rewrite Hfs', lookup_insert_eq, Hfs. split.
  - intros [= <-]. simpl in Hn. injection Hn as Hn. by apply spliced_changes in Hn.
  - by rewrite spliced_has_marker.
Qed.

(** ** The loop of [main] *)

Lemma loop_body_run route k w :
  exists w' line,
    loop_body route k w = (Return (k + (if eligible w route then 1 else 0)), w')
    /\ add_dynamic_export route w = (Return (eligible w route), w')
    /\ stdout w' = stdout w ++ [line].
Proof.
  destruct (add_dynamic_export_summary w route) as (w' & line & Hrun & Hout & _).
  exists w', line. unfold loop_body, mbind, M_bind, bind, ret. rewrite Hrun.
  split_and!; try done. destruct (eligible w route); do 2 f_equal; lia.
Qed.

Lemma loop_summary (l : list text) :
  NoDup l ->
  forall k w,
  exists w' printed_lines,
    for_in l loop_body k w = (Return (k + length (List.filter (eligible w) l)), w')
    /\ stdout w' = stdout w ++ printed_lines
    /\ length printed_lines = length l
    /\ (forall q, q ∉ l -> fs w' !! q = fs w !! q)
    /\ (forall q, eligible w q = false -> fs w' !! q = fs w !! q)
    /\ (forall q, q ∈ l -> eligible w q = true ->
          fs w' !! q <> fs w !! q /\ eligible w' q = false)
    /\ (forall q, q ∈ opened_w w' -> q ∈ opened_w w \/ q ∈ l).
Proof.
  induction 1 as [|x l Hx Hnd IH]; intros k w.
  { exists w, []. simpl. unfold ret. rewrite Nat.add_0_r, app_nil_r.
    split_and!; try done.
    - intros q Hq. by apply not_elem_of_nil in Hq.
    - by left. }
  destruct (loop_body_run x k w) as (w1 & line & Hbody & Hrun & Hout1).
  destruct (add_dynamic_export_summary w x)
    as (w1' & line' & Hrun' & _ & Hother & Hno & _ & Hlog).
  rewrite Hrun in Hrun'. injection Hrun' as <-.
  destruct (IH (k + (if eligible w x then 1 else 0)) w1)
    as (w' & ls & Hloop & Hout & Hlen & Hout_l & Hne & Hel & Hlog').
  assert (Hsame : forall q, q ∈ l -> eligible w1 q = eligible w q).
  { intros q Hq. apply eligible_ext, Hother. intros ->. done. }
  assert (Hfilter : List.filter (eligible w1) l = List.filter (eligible w) l).
  { apply List.filter_ext_in. intros q Hq. apply Hsame. by apply list_elem_of_In. }
  exists w', (line :: ls). split_and!.
  - cbn [for_in]. unfold bind at 1. rewrite Hbody, Hloop, Hfilter.
    cbn [List.filter]. destruct (eligible w x); cbn [length]; do 2 f_equal; lia.
  - rewrite Hout, Hout1, <- app_assoc. done.
  - simpl. by rewrite Hlen.
  - intros q Hq. apply not_elem_of_cons in Hq as [Hqx Hql].
    rewrite (Hout_l q Hql). by apply Hother.
  - intros q Hq. destruct (decide (q = x)) as [->|Hqx].
    + rewrite (Hout_l x Hx). by rewrite (Hno Hq).
    + rewrite Hne; [by apply Hother|].
      rewrite (eligible_ext w w1 q); [done|]. by apply Hother.
  - intros q Hq Helig. apply elem_of_cons in Hq as [->|Hq].
    + destruct (rewritten_file w w1 x) as [Hdiff Hnot].
      { by rewrite Hrun, Helig. }
      rewrite (Hout_l x Hx). split; [done|].
      rewrite (eligible_ext w1 w' x); [done|]. by apply Hout_l.
    + assert (q <> x) by (intros ->; done).
      destruct (Hel q Hq) as [Hdiff Hnot]; [by rewrite Hsame|].
      split; [|done]. by rewrite <- (Hother q).
  - intros q Hq. destruct (Hlog' q Hq) as [Hq1|Hq1].
    + destruct Hlog as [Hl|Hl]; rewrite Hl in Hq1; [by left|].
      apply elem_of_app in Hq1 as [?|Hq1]; [by left|].
      right. apply list_elem_of_singleton in Hq1 as ->. by left.
    + right. by right.
Qed.

Lemma API_ROUTES_NoDup : NoDup API_ROUTES.
Proof. apply (bool_decide_unpack _). vm_compute. reflexivity. Qed.

Lemma main_unfold w :
  main w =
  match for_in API_ROUTES loop_body 0 (printed w header_line) with
  | (Return updated_count, w1) => (Return tt, printed w1 (done_line updated_count))
  | (Raise e, w1) => (Raise e, w1)
  end.
Proof. reflexivity. Qed.

Lemma main_summary w :
  exists w' printed_lines,
    main w = (Return tt, w')
    /\ stdout w' = stdout w ++ [header_line] ++ printed_lines
                   ++ [done_line (length (List.filter (eligible w) API_ROUTES))]
    /\ length printed_lines = length API_ROUTES
    /\ (forall q, q ∉ API_ROUTES -> fs w' !! q = fs w !! q)
    /\ (forall q, eligible w q = false -> fs w' !! q = fs w !! q)
    /\ (forall q, q ∈ API_ROUTES -> eligible w q = true ->
          fs w' !! q <> fs w !! q /\ eligible w' q = false)
    /\ (forall q, q ∈ opened_w w' -> q ∈ opened_w w \/ q ∈ API_ROUTES).
Proof.
  destruct (loop_summary API_ROUTES API_ROUTES_NoDup 0 (printed w header_line))
    as (w1 & ls & Hloop & Hout & Hlen & Hout_l & Hne & Hel & Hlog).
  assert (Hsame : forall q, eligible (printed w header_line) q = eligible w q).
  { intros q. by apply eligible_ext. }
  assert (Hfilter : List.filter (eligible (printed w header_line)) API_ROUTES
                    = List.filter (eligible w) API_ROUTES).
  { apply List.filter_ext. exact Hsame. }
  rewrite Hfilter in Hloop.
  exists (printed w1 (done_line (length (List.filter (eligible w) API_ROUTES)))), ls.
  split; [|split; [|split; [|split; [|split; [|split]]]]].
  - rewrite main_unfold, Hloop. reflexivity.
  - cbn [stdout printed]. rewrite Hout. cbn [stdout printed].
    rewrite <- !app_assoc. reflexivity.
  - exact Hlen.
  - exact Hout_l.
  - intros q Hq. apply Hne. by rewrite Hsame.
  - intros q Hq Helig. apply Hel; [exact Hq|]. by rewrite Hsame.
  - exact Hlog.
Qed.

(** ** Where the inserted text occurs *)

(** An occurrence of a text without [x] lies on one side of an [x]. *)
Lemma prefix_before (x : N) (needle X Y Q : text) :
  x ∉ needle -> needle ++ Q = X ++ x :: Y -> exists Q', X = needle ++ Q'.
Proof.
  revert X. induction needle as [|c needle IH]; intros X Hx H.
  - by exists X.
  - destruct X as [|a X]; simplify_eq/=.
    + exfalso. apply Hx. by left.
    + destruct (IH X) as [Q' ->]; [|done|by exists Q'].
      intros Hin. apply Hx. by right.
Qed.

Lemma split_occurrence (x : N) (needle X Y P Q : text) :
  x ∉ needle ->
  X ++ x :: Y = P ++ needle ++ Q ->
  (exists Q', X = P ++ needle ++ Q')
  \/ (exists P', Y = P' ++ needle ++ Q /\ P = X ++ x :: P').
Proof.
  intros Hx. revert P. induction X as [|a X IH]; intros P H.
  - destruct P as [|b P]; simpl in H.
    + left. symmetry in H. destruct (prefix_before x needle [] Y Q Hx H) as [Q' HQ'].
      by exists Q'.
    + right. injection H as <- ->. by exists P.
  - destruct P as [|b P]; simpl in H.
    + left. symmetry in H.
      destruct (prefix_before x needle (a :: X) Y Q Hx H) as [Q' HQ'].
      by exists Q'.
    + injection H as <- H. destruct (IH P H) as [[Q' ->]|[P' [-> ->]]].
      * left. by exists Q'.
      * right. by exists P'.
Qed.

Lemma occurs_only_at (needle hay : text) (k : nat) :
  forallb (fun i => implb (occurs_at needle hay i) (Nat.eqb i k)) (seq 0 (S (length hay))) = true ->
  forall i, occurs_at needle hay i = true -> i = k.
Proof.
  intros Hall i Hi. rewrite forallb_forall in Hall.
  assert (Hle : i <= length hay).
  { unfold occurs_at in Hi. apply andb_true_iff in Hi as [Hi _]. by apply Nat.leb_le. }
  specialize (Hall i). rewrite Hi in Hall. apply Nat.eqb_eq, Hall.
  apply in_seq. lia.
Qed.

Lemma DYNAMIC_EXPORT_lines :
  DYNAMIC_EXPORT = [LF] ++ comment_line ++ [LF] ++ export_line ++ [LF].
Proof. reflexivity. Qed.

Lemma insertion_lines (A B : text) :
  A ++ DYNAMIC_EXPORT ++ B = A ++ LF :: (comment_line ++ LF :: (export_line ++ LF :: B)).
Proof. rewrite DYNAMIC_EXPORT_lines, <- !app_assoc. reflexivity. Qed.

Lemma LF_not_in_marker : LF ∉ marker.
Proof. apply (bool_decide_unpack _). vm_compute. reflexivity. Qed.

(** In [A ++ DYNAMIC_EXPORT ++ B], where [A ++ B] lacks the marker, the
    marker occurs in the export line of the inserted text and nowhere else. *)
Lemma marker_occurs_once (A B : text) (i : nat) :
  contains marker (A ++ B) = false ->
  occurs_at marker (A ++ DYNAMIC_EXPORT ++ B) i = true ->
  i = length A + S (length comment_line + 1).
Proof.
  intros Hno Hi.
  destruct (occurs_at_inv _ _ _ Hi) as (P & Q & Heq & <-).
  pose proof (not_contains_app_l _ _ _ Hno) as HA.
  pose proof (not_contains_app_r _ _ _ Hno) as HB.
  rewrite insertion_lines in Heq.
  destruct (split_occurrence LF marker _ _ _ _ LF_not_in_marker Heq)
    as [[Q' ->]|(P1 & Heq1 & ->)].
  { by rewrite contains_app in HA. }
  destruct (split_occurrence LF marker _ _ _ _ LF_not_in_marker Heq1)
    as [[Q' Hc]|(P2 & Heq2 & ->)].
  { assert (contains marker comment_line = false) as Hcl by (vm_compute; reflexivity).
    by rewrite Hc, contains_app in Hcl. }
  destruct (split_occurrence LF marker _ _ _ _ LF_not_in_marker Heq2)
    as [[Q' He]|(P3 & -> & _)].
  2: { by rewrite contains_app in HB. }
  assert (length P2 = 0) as HP2.
  { apply (occurs_only_at marker export_line 0); [vm_compute; reflexivity|].
    rewrite He. apply occurs_at_app. }
  rewrite !length_app. cbn [length]. rewrite !length_app. cbn [length]. lia.
Qed.

(** The inserted text occurs where it was spliced in and nowhere else. *)
Lemma DYNAMIC_EXPORT_occurs_once (A B : text) (i : nat) :
  contains marker (A ++ B) = false ->
  occurs_at DYNAMIC_EXPORT (A ++ DYNAMIC_EXPORT ++ B) i = true <-> i = length A.
Proof.
  intros Hno. split.
  - intros Hi. destruct (occurs_at_inv _ _ _ Hi) as (P & Q & Heq & <-).
    assert (Hm : occurs_at marker (A ++ DYNAMIC_EXPORT ++ B)
                   (length (P ++ [LF] ++ comment_line ++ [LF])) = true).
    { rewrite Heq at 1.
      replace (P ++ DYNAMIC_EXPORT ++ Q)
        with ((P ++ [LF] ++ comment_line ++ [LF]) ++ marker
              ++ (str " = 'force-dynamic'" ++ [LF] ++ Q)).
      - apply occurs_at_app.
      - rewrite DYNAMIC_EXPORT_lines, <- !app_assoc. reflexivity. }
    apply (marker_occurs_once A B _ Hno) in Hm.
    rewrite !length_app in Hm. simpl in Hm. lia.
  - intros ->. apply occurs_at_app.
Qed.

(** ** What a match of the pattern looks like *)

Section Soundness.

Context {R : Type}.

Lemma rep_greedy_sound cs (t : text) :
  forall min pos (k : nat -> text -> option R) res,
    rep_greedy cs min pos t k = Some res ->
    exists u t',
      t = u ++ t' /\ Forall (fun c => in_charset cs c = true) u /\ min <= length u
      /\ k (pos + length u) t' = Some res.
Proof.
  induction t as [|c t IH]; intros min pos k res H; simpl in H.
  - destruct min; [|done]. exists [], []. rewrite Nat.add_0_r. by split_and!.
  - destruct (in_charset cs c) eqn:Hc.
    + destruct (rep_greedy cs (Nat.pred min) (S pos) t k) as [x|] eqn:Hrec; simpl in H.
      * injection H as ->. destruct (IH _ _ _ _ Hrec) as (u & t' & -> & Hu & Hmin & Hk).
        exists (c :: u), t'. split_and!; [done|by constructor|simpl; lia|].
        by rewrite <- Hk; simpl; rewrite Nat.add_succ_r.
      * destruct min; [|done]. exists [], (c :: t). rewrite Nat.add_0_r. by split_and!.
    + destruct min; [|done]. exists [], (c :: t). rewrite Nat.add_0_r. by split_and!.
Qed.

Lemma rep_lazy_sound cs (t : text) :
  forall min pos (k : nat -> text -> option R) res,
    rep_lazy cs min pos t k = Some res ->
    exists u t',
      t = u ++ t' /\ Forall (fun c => in_charset cs c = true) u /\ min <= length u
      /\ k (pos + length u) t' = Some res.
Proof.
  induction t as [|c t IH]; intros min pos k res H.
  - destruct min; simpl in H; [|done].
    destruct (k pos []) as [x|] eqn:Hk; simpl in H; [|done]. injection H as ->.
    exists [], []. rewrite Nat.add_0_r. by split_and!.
  - assert (Hmore : (if in_charset cs c then rep_lazy cs (Nat.pred min) (S pos) t k else None)
                    = Some res ->
                    exists u t', c :: t = u ++ t'
                      /\ Forall (fun c => in_charset cs c = true) u /\ min <= length u
                      /\ k (pos + length u) t' = Some res).
    { intros Hm. destruct (in_charset cs c) eqn:Hc; [|done].
      destruct (IH _ _ _ _ Hm) as (u & t' & -> & Hu & Hmin & Hk).
      exists (c :: u), t'. split_and!; [done|by constructor|simpl; lia|].
      by rewrite <- Hk; simpl; rewrite Nat.add_succ_r. }
    destruct min; simpl in H; [|by apply Hmore].
    destruct (k pos (c :: t)) as [x|] eqn:Hk; simpl in H; [|by apply Hmore].
    injection H as ->. exists [], (c :: t). rewrite Nat.add_0_r. by split_and!.
Qed.

Lemma exec_sound (r : regex) :
  forall pos t gs (k : cont) (res : R),
    exec r pos t gs k = Some res ->
    exists pos' t' gs', Matches r pos t gs pos' t' gs' /\ k pos' t' gs' = Some res.
Proof.
  induction r as [p|cs min greedy|r1 IH1 r2 IH2|r1 IH1 r2 IH2|r1 IH1|n r1 IH1];
    intros pos t gs k res H; simpl in H.
  - destruct (starts_with p t) eqn:Hp; [|done].
    destruct (starts_with_inv _ _ Hp) as [t' ->].
    rewrite drop_app_length in H. eexists _, _, _. split; [constructor|done].
  - destruct greedy.
    + destruct (rep_greedy_sound _ _ _ _ _ _ H) as (u & t' & -> & Hu & Hmin & Hk).
      eexists _, _, _. split; [by constructor|done].
    + destruct (rep_lazy_sound _ _ _ _ _ _ H) as (u & t' & -> & Hu & Hmin & Hk).
      eexists _, _, _. split; [by constructor|done].
  - destruct (IH1 _ _ _ _ _ H) as (pos1 & t1 & gs1 & Hm1 & H1).
    destruct (IH2 _ _ _ _ _ H1) as (pos2 & t2 & gs2 & Hm2 & H2).
    eexists _, _, _. split; [by econstructor|done].
  - destruct (exec r1 pos t gs k) as [x|] eqn:H1; simpl in H.
    + injection H as ->. destruct (IH1 _ _ _ _ _ H1) as (pos' & t' & gs' & Hm & Hk).
      eexists _, _, _. split; [by apply M_Alt_l|done].
    + destruct (IH2 _ _ _ _ _ H) as (pos' & t' & gs' & Hm & Hk).
      eexists _, _, _. split; [by apply M_Alt_r|done].
  - destruct (exec r1 pos t gs k) as [x|] eqn:H1; simpl in H.
    + injection H as ->. destruct (IH1 _ _ _ _ _ H1) as (pos' & t' & gs' & Hm & Hk).
      eexists _, _, _. split; [by apply M_Opt_some|done].
    + eexists _, _, _. split; [apply M_Opt_none|done].
  - destruct (IH1 _ _ _ _ _ H) as (pos' & t' & gs' & Hm & Hk).
    eexists _, _, _. split; [by constructor|done].
Qed.

End Soundness.

Lemma match_at_sound r pos t m :
  match_at r pos t = Some m ->
  exists pos' t' gs', Matches r pos t [] pos' t' gs' /\ m = MatchObj pos pos' gs'.
Proof.
  intros H. destruct (exec_sound r _ _ _ _ _ H) as (pos' & t' & gs' & Hm & Hk).
  exists pos', t', gs'. split; [done|]. by injection Hk.
Qed.

Lemma search_from_sound r (t : text) :
  forall pos m,
    search_from r pos t = Some m ->
    exists pre suf, t = pre ++ suf /\ match_at r (pos + length pre) suf = Some m.
Proof.
  induction t as [|c t IH]; intros pos m H; simpl in H.
  - destruct (match_at r pos []) eqn:Hm; [|done]. injection H as ->.
    exists [], []. by rewrite Nat.add_0_r.
  - destruct (match_at r pos (c :: t)) eqn:Hm.
    + injection H as ->. exists [], (c :: t). by rewrite Nat.add_0_r.
    + destruct (IH _ _ H) as (pre & suf & -> & Hat).
      exists (c :: pre), suf. simpl. by rewrite Nat.add_succ_r.
Qed.

Lemma nonempty_of_length {A} (l : list A) : 1 <= length l -> l <> [].
Proof. destruct l; simpl; [lia|done]. Qed.

(** A match of [import_pattern]: group 1 starts at an [import] followed by
    white space and ends after a line feed; what follows it is a run of line
    feeds and then an export declaration that the pattern accepts. *)
Lemma import_pattern_match (content : text) (m : match_obj) :
  search import_pattern content = Some m ->
  exists pre ws body nls decl,
    content = (pre ++ str "import" ++ ws ++ body ++ [LF]) ++ nls ++ decl
    /\ ws <> [] /\ Forall (fun c => is_space c = true) ws
    /\ Forall (fun c => c = LF) nls
    /\ export_head decl
    /\ m_end m 1 = Z.of_nat (length (pre ++ str "import" ++ ws ++ body ++ [LF])).
Proof.
  unfold search. intros H.
  destruct (search_from_sound _ _ _ _ H) as (pre & suf & -> & Hat).
  destruct (match_at_sound _ _ _ _ Hat) as (pos' & t' & gs' & HM & ->).
  unfold import_pattern, export_pattern in HM.
  invert_matches.
  all: match goal with
       | |- exists _ _ _ _ _,
              ?pr ++ str "import" ++ ?ws ++ ?body ++ [LF] ++ ?nls ++ ?decl = _ /\ _ =>
           exists pr, ws, body, nls, decl
       end.
  all: split_and!;
    [ by rewrite <- !app_assoc
    | by apply nonempty_of_length
    | done
    | match goal with
      | H : Forall (fun c => in_charset (Chr LF) c = true) _ |- _ =>
          eapply Forall_impl; [exact H|];
          intros c Hc; symmetry; by apply N.eqb_eq
      end
    |
    | unfold m_end; cbn [m_groups group_span Nat.eqb]; f_equal;
      rewrite !length_app; lia ].
  - match goal with
    | |- export_head (_ ++ ?ws ++ _ ++ ?ws' ++ _ ++ ?rest) =>
        exists ws, rest; split_and!; [by apply nonempty_of_length|done|];
        right; left; exists ws'; split_and!; [by apply nonempty_of_length|done|done]
    end.
  - match goal with
    | |- export_head (_ ++ ?ws ++ _ ++ ?rest) =>
        exists ws, rest; split_and!; [by apply nonempty_of_length|done|by left]
    end.
  - match goal with
    | |- export_head (_ ++ ?ws ++ _ ++ ?rest) =>
        exists ws, rest; split_and!; [by apply nonempty_of_length|done|by right; right]
    end.
Qed.

(** What a successful call writes: the inserted text is spliced in between
    two parts of the old text, and occurs there only. The first part ends
    with the line feed of group 1, which starts at an [import]; the second
    part is a run of line feeds followed by an export declaration that the
    pattern accepts. *)
Lemma added_file_shape (w : world) (file_path : text) (n : node) (content : text) (m : match_obj) :
  fs w !! file_path = Some n ->
  on_read n = Content content ->
  on_write n = None ->
  contains marker content = false ->
  contains trigger content = true ->
  search import_pattern content = Some m ->
  exists A B,
    content = A ++ B
    /\ add_dynamic_export file_path w =
         (Return true,
          World (<[file_path := Node (Content (A ++ DYNAMIC_EXPORT ++ B)) None]> (fs w))
                (stdout w ++ [msg_added file_path]) (opened_w w ++ [file_path]))
    /\ (forall i, occurs_at DYNAMIC_EXPORT (A ++ DYNAMIC_EXPORT ++ B) i = true <-> i = length A)
    /\ (exists pre ws body,
          A = pre ++ str "import" ++ ws ++ body ++ [LF]
          /\ ws <> [] /\ Forall (fun c => is_space c = true) ws)
    /\ (exists nls decl,
          B = nls ++ decl /\ Forall (fun c => c = LF) nls /\ export_head decl).
Proof.
  intros Hfs Hn Hw Hm Ht Hs.
  destruct (import_pattern_match _ _ Hs)
    as (pre & ws & body & nls & decl & Hc & Hws & Hsp & Hnls & Hdecl & Hend).
  exists (pre ++ str "import" ++ ws ++ body ++ [LF]), (nls ++ decl).
  split_and!; [done| |by intros i; apply DYNAMIC_EXPORT_occurs_once; rewrite <- Hc
              |by exists pre, ws, body|by exists nls, decl].
  rewrite (case_added _ _ _ _ _ Hfs Hn Hm Ht Hs Hw).
  unfold spliced. rewrite Hend, Hc.
  destruct (slice_at_app (pre ++ str "import" ++ ws ++ body ++ [LF]) (nls ++ decl)) as [-> ->].
  done.
Qed.

(** ** The script in an environment with faults *)

Lemma lookup_apply_node (p q : text) (o : option node) (m : gmap text node) :
  apply_node p o m !! q = if decide (q = p) then from_option Some (m !! q) o else m !! q.
Proof.
  destruct o as [n|]; simpl.
  - rewrite lookup_insert. destruct (decide (p = q)), (decide (q = p)); congruence.
  - by destruct (decide (q = p)).
Qed.

Lemma print_in_accepts (E : env) (line : text) (w : world) :
  stdout_accepts E -> print_in E line w = (Return tt, printed w line).
Proof. intros Hok. unfold print_in. by rewrite Hok. Qed.

(** The [except] clauses: what [add_dynamic_export_in] does with an
    exception of the try body. *)
Lemma handler_run (E : env) (p : text) (w w1 : world) (e : exn) :
  add_dynamic_export_try_in E p w = (Raise e, w1) ->
  add_dynamic_export_in E p w
  = match print_raises E match e with
                         | FileNotFoundError _ => msg_not_found p
                         | OtherException msg => msg_error p msg
                         end with
    | Some msg' => (Raise (OtherException msg'), w1)
    | None =>
        (Return false,
         printed w1 match e with
                    | FileNotFoundError _ => msg_not_found p
                    | OtherException msg => msg_error p msg
                    end)
    end.
Proof.
  intros Htry. unfold add_dynamic_export_in, try_except. rewrite Htry.
  destruct e as [path|msg]; unfold mbind, M_bind, bind, print_in, ret, printed;
    by destruct (print_raises E _).
Qed.

Lemma add_dynamic_export_in_effect (E : env) (w : world) (p : text) :
  stdout_accepts E ->
  add_dynamic_export_in E p w =
    (Return (e_updated (effect_in E (fs w !! p) p)),
     World (apply_node p (e_node (effect_in E (fs w !! p) p)) (fs w))
           (stdout w ++ [e_line (effect_in E (fs w !! p) p)])
           (opened_w w ++ e_opened (effect_in E (fs w !! p) p))).
Proof.
  intros Hok.
  unfold effect_in, add_dynamic_export_in, try_except, add_dynamic_export_try_in,
    write_file_in, mbind, M_bind, bind, read_file, print_in, ret, spliced, marker, trigger.
  destruct (fs w !! p) as [[[content|msg] o]|] eqn:Hfs; cbn [on_read].
  - destruct (contains (str "export const dynamic") content).
    { rewrite Hok. cbn [e_updated e_line e_opened e_node apply_node]. by rewrite app_nil_r. }
    destruct (contains (str "getServerSession") content); cbn [negb].
    2: { rewrite Hok. cbn [e_updated e_line e_opened e_node apply_node]. by rewrite app_nil_r. }
    destruct (search import_pattern content) as [m|].
    2: { rewrite Hok. cbn [e_updated e_line e_opened e_node apply_node]. by rewrite app_nil_r. }
    cbn [fs stdout opened_w]. rewrite Hfs.
    destruct o as [msg|].
    { rewrite Hok. reflexivity. }
    destruct (write_cut E p _) as [[rest msg]|]; rewrite Hok; reflexivity.
  - rewrite Hok. cbn [e_updated e_line e_opened e_node apply_node]. by rewrite app_nil_r.
  - rewrite Hok. cbn [e_updated e_line e_opened e_node apply_node]. by rewrite app_nil_r.
Qed.

Lemma loop_effects_in (E : env) (l : list text) :
  stdout_accepts E ->
  NoDup l ->
  forall k w,
  exists w',
    for_in l (loop_body_in E) k w
    = (Return (k + length (List.filter (fun p => e_updated (effect_in E (fs w !! p) p)) l)), w')
    /\ stdout w' = stdout w ++ List.map (fun p => e_line (effect_in E (fs w !! p) p)) l
    /\ opened_w w'
       = opened_w w ++ List.concat (List.map (fun p => e_opened (effect_in E (fs w !! p) p)) l)
    /\ (forall q, fs w' !! q =
                    if decide (q ∈ l)
                    then from_option Some (fs w !! q) (e_node (effect_in E (fs w !! q) q))
                    else fs w !! q).
Proof.
  intros Hok. induction 1 as [|x l Hx Hnd IH]; intros k w.
  { exists w. cbn. unfold ret. rewrite Nat.add_0_r, !app_nil_r. by split_and!. }
  pose proof (add_dynamic_export_in_effect E w x Hok) as Hstep.
  set (e := effect_in E (fs w !! x) x) in *.
  set (w1 := World (apply_node x (e_node e) (fs w)) (stdout w ++ [e_line e])
                   (opened_w w ++ e_opened e)) in *.
  assert (Hsame : forall q, q ∈ l -> fs w1 !! q = fs w !! q).
  { intros q Hq. subst w1. cbn [fs]. rewrite lookup_apply_node.
    destruct (decide (q = x)) as [->|]; [done|done]. }
  destruct (IH (k + (if e_updated e then 1 else 0)) w1) as (w' & Hloop & Hout & Hlog & Hfs).
  exists w'. split_and!.
  - cbn [for_in]. unfold bind at 1.
    assert (Hbody : loop_body_in E x k w = (Return (k + (if e_updated e then 1 else 0)), w1)).
    { unfold loop_body_in, mbind, M_bind, bind, ret. rewrite Hstep.
      destruct (e_updated e); do 2 f_equal; lia. }
    rewrite Hbody, Hloop. cbn [List.filter]. fold e.
    rewrite (List.filter_ext_in (fun p => e_updated (effect_in E (fs w1 !! p) p))
                                (fun p => e_updated (effect_in E (fs w !! p) p)) l).
    2: { intros q Hq. rewrite Hsame; [done|]. by apply list_elem_of_In. }
    destruct (e_updated e); cbn [length]; do 2 f_equal; lia.
  - rewrite Hout. subst w1. cbn [stdout List.map]. fold e. rewrite <- app_assoc. cbn.
    do 2 f_equal. apply List.map_ext_in. intros q Hq.
    rewrite Hsame; [done|]. by apply list_elem_of_In.
  - rewrite Hlog. subst w1. cbn [opened_w List.map List.concat]. fold e.
    rewrite <- app_assoc. do 3 f_equal. apply List.map_ext_in. intros q Hq.
    rewrite Hsame; [done|]. by apply list_elem_of_In.
  - intros q. rewrite Hfs. destruct (decide (q ∈ l)) as [Hq|Hq].
    + rewrite (Hsame q Hq). destruct (decide (q ∈ x :: l)) as [|Hn]; [done|].
      exfalso. apply Hn. by right.
    + subst w1. cbn [fs]. rewrite lookup_apply_node.
      destruct (decide (q = x)) as [->|Hqx].
      * fold e. destruct (decide (x ∈ x :: l)) as [|Hn]; [done|].
        exfalso. apply Hn. by left.
      * destruct (decide (q ∈ x :: l)) as [Hin|]; [|done].
        apply elem_of_cons in Hin as [?|?]; done.
Qed.

Lemma main_in_unfold (E : env) (w : world) :
  stdout_accepts E ->
  main_in E w =
  match for_in API_ROUTES (loop_body_in E) 0 (printed w header_line) with
  | (Return updated_count, w1) => (Return tt, printed w1 (done_line updated_count))
  | (Raise e, w1) => (Raise e, w1)
  end.
Proof.
  intros Hok.
  change (main_in E w)
    with (bind (print_in E header_line)
               (fun _ => bind (for_in API_ROUTES (loop_body_in E) 0)
                              (fun n => print_in E (done_line n))) w).
  unfold bind at 1. rewrite (print_in_accepts E _ _ Hok). unfold bind at 1.
  destruct (for_in API_ROUTES (loop_body_in E) 0 (printed w header_line)) as [[n|e] w1];
    [|done].
  by rewrite (print_in_accepts E _ _ Hok).
Qed.

Lemma main_in_effects (E : env) (w : world) :
  stdout_accepts E ->
  exists w',
    main_in E w = (Return tt, w')
    /\ stdout w' = stdout w ++ [header_line]
         ++ List.map (fun p => e_line (effect_in E (fs w !! p) p)) API_ROUTES
         ++ [done_line (length (List.filter (fun p => e_updated (effect_in E (fs w !! p) p))
                                            API_ROUTES))]
    /\ opened_w w' = opened_w w
         ++ List.concat (List.map (fun p => e_opened (effect_in E (fs w !! p) p)) API_ROUTES)
    /\ (forall q, fs w' !! q =
                    if decide (q ∈ API_ROUTES)
                    then from_option Some (fs w !! q) (e_node (effect_in E (fs w !! q) q))
                    else fs w !! q).
Proof.
  intros Hok.
  destruct (loop_effects_in E API_ROUTES Hok API_ROUTES_NoDup 0 (printed w header_line))
    as (w1 & Hloop & Hout & Hlog & Hfs).
  cbn [fs stdout opened_w printed] in *.
  eexists. split_and!.
  - rewrite (main_in_unfold E w Hok), Hloop. reflexivity.
  - cbn [stdout printed]. rewrite Hout. by rewrite <- !app_assoc.
  - exact Hlog.
  - exact Hfs.
Qed.

Lemma effect_in_completes (E : env) (w : world) (p : text) :
  e_updated (effect_in E (fs w !! p) p) = completes E w p.
Proof.
  unfold effect_in, completes.
  destruct (fs w !! p) as [[[content|msg] o]|]; [|done|done].
  destruct (contains marker content); [by destruct o|].
  destruct (contains trigger content); [|by destruct o].
  destruct (search import_pattern content); [|by destruct o].
  destruct o; [done|]. by destruct (write_cut E p _) as [[? ?]|].
Qed.

Lemma eligible_completes_or_cut (E : env) (w : world) (p : text) :
  eligible w p = completes E w p || cut_short E w p.
Proof.
  unfold eligible, completes, cut_short.
  destruct (fs w !! p) as [[[content|msg] [o|]]|]; try done.
  destruct (contains marker content); [done|].
  destruct (contains trigger content); [|done].
  destruct (search import_pattern content); [|done].
  by destruct (write_cut E p _).
Qed.

Lemma completes_node (E : env) (w : world) (q : text) :
  completes E w q = true ->
  exists content m,
    fs w !! q = Some (Node (Content content) None)
    /\ search import_pattern content = Some m
    /\ e_node (effect_in E (fs w !! q) q) = Some (Node (Content (spliced content m)) None).
Proof.
  unfold completes, effect_in.
  destruct (fs w !! q) as [[[content|msg] [o|]]|]; try done.
  destruct (contains marker content); [done|].
  destruct (contains trigger content); [|done].
  destruct (search import_pattern content) as [m|] eqn:Hs; [|done].
  destruct (write_cut E q (spliced content m)) as [[rest msg]|]; cbn [negb andb]; [done|].
  intros _. by exists content, m.
Qed.

Lemma untouched_node (E : env) (w : world) (q : text) :
  completes E w q = false -> cut_short E w q = false ->
  e_node (effect_in E (fs w !! q) q) = None.
Proof.
  unfold completes, cut_short, effect_in.
  destruct (fs w !! q) as [[[content|msg] [o|]]|]; try done.
  - destruct (contains marker content); [done|].
    destruct (contains trigger content); [|done].
    by destruct (search import_pattern content).
  - destruct (contains marker content); [done|].
    destruct (contains trigger content); [|done].
    destruct (search import_pattern content) as [m|]; [|done].
    by destruct (write_cut E q (spliced content m)) as [[rest msg]|].
Qed.

(** ** Facts about the printed lines and about a second run *)

Lemma last_snoc_line (l : list text) (x : text) : last (l ++ [x]) = Some x.
Proof. apply last_snoc. Qed.

Lemma msg_already_not_applicable p : msg_already p <> msg_not_applicable p.
Proof.
  unfold msg_already, msg_not_applicable. intros H.
  do 4 apply app_inv_head in H. vm_compute in H. discriminate.
Qed.

Lemma none_eligible_after_main w q :
  q ∈ API_ROUTES -> eligible (main w).2 q = false.
Proof.
  intros Hq.
  destruct (main_summary w) as (w' & ls & Hmain & _ & _ & _ & Hne & Hel & _).
  rewrite Hmain. cbn [snd].
  destruct (eligible w q) eqn:Helig.
  - by apply Hel.
  - rewrite <- Helig. by apply eligible_ext, Hne.
Qed.

Lemma filter_none {A} (f : A -> bool) (l : list A) :
  (forall x, x ∈ l -> f x = false) -> List.filter f l = [].
Proof.
  induction l as [|x l IH]; intros H; simpl; [done|].
  rewrite (H x) by left. apply IH. intros y Hy. apply H. by right.
Qed.

(** ** The claims *)

(** C1, at two routes that have the trigger, lack the marker and match the
    pattern. In the first the imports are followed by a type export and then
    the handler: the call succeeds and writes the inserted text once, at
    index 81, after the line of the type export (which starts at index 45)
    and not between the import and the first export. In the second the
    first export comes before the import: the inserted text is written
    once, at index 77, while the first export declaration that the pattern
    itself accepts is at index 0. *)
Theorem C1_inserted_after_an_export :
  (contains trigger type_export_route = true
   /\ contains marker type_export_route = false
   /\ search import_pattern type_export_route
      = Some (MatchObj 0 103 [(3, (82, 103)); (4, (89, 95)); (2, (81, 82)); (1, (0, 81))])
   /\ add_dynamic_export settings_route
        (one_file settings_route (Node (Content type_export_route) None))
      = (Return true,
         World {[ settings_route := Node (Content type_export_route_after) None ]}
               [msg_added settings_route] [settings_route])
   /\ occurrences DYNAMIC_EXPORT type_export_route_after = [81]
   /\ occurrences (str "export type") type_export_route_after = [45])
  /\ (contains trigger export_first_route = true
      /\ contains marker export_first_route = false
      /\ search import_pattern export_first_route
         = Some (MatchObj 32 99 [(3, (78, 99)); (4, (85, 91)); (2, (77, 78)); (1, (32, 77))])
      /\ add_dynamic_export settings_route
           (one_file settings_route (Node (Content export_first_route) None))
         = (Return true,
            World {[ settings_route := Node (Content export_first_route_after) None ]}
                  [msg_added settings_route] [settings_route])
      /\ occurrences DYNAMIC_EXPORT export_first_route_after = [77]
      /\ first_export export_first_route = Some 0
      /\ first_export export_first_route_after = Some 0).
Proof.
  split; split_and!; vm_compute; reflexivity.
Qed.

(** C2, as stated, at a listed file that satisfies every insertion
    precondition, on a disk that is full after 100 characters of the write:
    one file satisfies the preconditions, the summary says 0, and the file
    is left with the first 100 characters of the new text. *)
Lemma C2_counterexample :
  length (List.filter (eligible (one_file settings_route (Node (Content plain_route) None)))
                      API_ROUTES) = 1
  /\ (main_in (disk_full settings_route 100)
        (one_file settings_route (Node (Content plain_route) None))).1 = Return tt
  /\ last (stdout (main_in (disk_full settings_route 100)
                     (one_file settings_route (Node (Content plain_route) None))).2)
     = Some (done_line 0)
  /\ done_line 0 <> done_line 1
  /\ fs (main_in (disk_full settings_route 100)
           (one_file settings_route (Node (Content plain_route) None))).2 !! settings_route
     = Some (Node (Content (take 100 updated_route)) None)
  /\ take 100 updated_route <> plain_route.
Proof.
  split_and!; try (vm_compute; reflexivity); vm_compute; discriminate.
Qed.

(** C2, amended: in a run in which standard output takes every line, when
    exactly [M] of the listed paths satisfy the insertion preconditions and
    have their write done whole, [main] returns, its last printed line is
    the summary with [M], and those [M] distinct paths are the files that
    end with their old text with the inserted text put in. A file whose
    state differs after the run is one of them, or a listed file that
    satisfies the preconditions and whose write failed after the file was
    opened; when no write fails so, [M] is the number of listed files that
    satisfy the preconditions and the files that differ are those [M]. *)
Theorem C2_count_is_number_of_completed_writes (E : env) (w : world) (M : nat) :
  stdout_accepts E ->
  length (List.filter (completes E w) API_ROUTES) = M ->
  (main_in E w).1 = Return tt
  /\ last (stdout (main_in E w).2) = Some (done_line M)
  /\ exists rewritten : list text,
       NoDup rewritten
       /\ length rewritten = M
       /\ (forall q, q ∈ rewritten <-> q ∈ API_ROUTES /\ completes E w q = true)
       /\ (forall q, q ∈ rewritten ->
             exists content m,
               fs w !! q = Some (Node (Content content) None)
               /\ search import_pattern content = Some m
               /\ fs (main_in E w).2 !! q = Some (Node (Content (spliced content m)) None)
               /\ fs (main_in E w).2 !! q <> fs w !! q)
       /\ (forall q, fs (main_in E w).2 !! q <> fs w !! q ->
             q ∈ rewritten \/ (q ∈ API_ROUTES /\ cut_short E w q = true))
       /\ ((forall q, q ∈ API_ROUTES -> cut_short E w q = false) ->
           length (List.filter (eligible w) API_ROUTES) = M
           /\ forall q, q ∈ rewritten <-> fs (main_in E w).2 !! q <> fs w !! q).
Proof.
  intros Hok HM.
  destruct (main_in_effects E w Hok) as (w' & Hmain & Hout & _ & Hfs).
  rewrite Hmain. cbn [fst snd].
  assert (Hcount : List.filter (fun p => e_updated (effect_in E (fs w !! p) p)) API_ROUTES
                   = List.filter (completes E w) API_ROUTES).
  { apply List.filter_ext. intros p. apply effect_in_completes. }
  assert (Hmem : forall q, q ∈ List.filter (completes E w) API_ROUTES
                           <-> q ∈ API_ROUTES /\ completes E w q = true).
  { intros q. by rewrite list_elem_of_In, List.filter_In, <- list_elem_of_In. }
  assert (Hre : forall q, q ∈ API_ROUTES -> completes E w q = true ->
            exists content m,
              fs w !! q = Some (Node (Content content) None)
              /\ search import_pattern content = Some m
              /\ fs w' !! q = Some (Node (Content (spliced content m)) None)
              /\ fs w' !! q <> fs w !! q).
  { intros q Hq Hc. destruct (completes_node E w q Hc) as (content & m & Hq0 & Hs & Hn).
    exists content, m. rewrite Hfs, Hn. destruct (decide (q ∈ API_ROUTES)); [|done].
    rewrite Hq0. cbn [from_option]. split_and!; try done.
    intros [= H]. by apply spliced_changes in H. }
  assert (Hch : forall q, fs w' !! q <> fs w !! q ->
            q ∈ API_ROUTES /\ (completes E w q = true \/ cut_short E w q = true)).
  { intros q Hdiff. rewrite Hfs in Hdiff.
    destruct (decide (q ∈ API_ROUTES)) as [Hq|]; [|done]. split; [done|].
    destruct (completes E w q) eqn:Hc; [by left|].
    destruct (cut_short E w q) eqn:Hcut; [by right|].
    rewrite (untouched_node E w q Hc Hcut) in Hdiff. by destruct (fs w !! q). }
  split_and!; [done| |].
  - rewrite Hout, Hcount, HM, !app_assoc. apply last_snoc_line.
  - exists (List.filter (completes E w) API_ROUTES). split_and!; [|done|done| | |].
    + apply NoDup_ListNoDup, List.NoDup_filter, NoDup_ListNoDup, API_ROUTES_NoDup.
    + intros q Hq. apply Hmem in Hq as [Hq Hc]. by apply Hre.
    + intros q Hdiff. destruct (Hch q Hdiff) as [Hq [Hc|Hcut]].
      * left. by apply Hmem.
      * by right.
    + intros Hnocut. split.
      * rewrite <- HM. f_equal. apply List.filter_ext_in. intros q Hq.
        rewrite (eligible_completes_or_cut E w q).
        rewrite (Hnocut q); [by rewrite orb_false_r|]. by apply list_elem_of_In.
      * intros q. split.
        -- intros Hq. apply Hmem in Hq as [Hq Hc].
           by destruct (Hre q Hq Hc) as (? & ? & _ & _ & _ & ?).
        -- intros Hdiff. destruct (Hch q Hdiff) as [Hq [Hc|Hcut]].
           ++ by apply Hmem.
           ++ by rewrite (Hnocut q Hq) in Hcut.
Qed.

Lemma C2_witness :
  (main_in (disk_full (str "app/api/projects/route.ts") 100) sample_world).1 = Return tt
  /\ last (stdout (main_in (disk_full (str "app/api/projects/route.ts") 100) sample_world).2)
     = Some (done_line 1)
  /\ exists rewritten : list text,
       NoDup rewritten
       /\ length rewritten = 1
       /\ (forall q, q ∈ rewritten <->
             q ∈ API_ROUTES
             /\ completes (disk_full (str "app/api/projects/route.ts") 100) sample_world q = true)
       /\ (forall q, q ∈ rewritten ->
             exists content m,
               fs sample_world !! q = Some (Node (Content content) None)
               /\ search import_pattern content = Some m
               /\ fs (main_in (disk_full (str "app/api/projects/route.ts") 100) sample_world).2
                    !! q = Some (Node (Content (spliced content m)) None)
               /\ fs (main_in (disk_full (str "app/api/projects/route.ts") 100) sample_world).2
                    !! q <> fs sample_world !! q)
       /\ (forall q,
             fs (main_in (disk_full (str "app/api/projects/route.ts") 100) sample_world).2 !! q
             <> fs sample_world !! q ->
             q ∈ rewritten
             \/ (q ∈ API_ROUTES
                 /\ cut_short (disk_full (str "app/api/projects/route.ts") 100) sample_world q
                    = true))
       /\ ((forall q, q ∈ API_ROUTES ->
              cut_short (disk_full (str "app/api/projects/route.ts") 100) sample_world q = false) ->
           length (List.filter (eligible sample_world) API_ROUTES) = 1
           /\ forall q, q ∈ rewritten <->
                fs (main_in (disk_full (str "app/api/projects/route.ts") 100) sample_world).2 !! q
                <> fs sample_world !! q).
Proof.
  apply (C2_count_is_number_of_completed_writes
           (disk_full (str "app/api/projects/route.ts") 100) sample_world 1).
  - intros line. reflexivity.
  - vm_compute. reflexivity.
Defined.

(** C3: a file whose text already has the marker (the inserted text, or the
    substring that is tested) is left as it is: the call returns [False],
    prints the already-has line, writes nothing. *)
Theorem C3_marker_present_is_noop (w : world) (file_path : text) (n : node) (content : text) :
  fs w !! file_path = Some n ->
  on_read n = Content content ->
  contains DYNAMIC_EXPORT content = true \/ contains marker content = true ->
  exists w',
    add_dynamic_export file_path w = (Return false, w')
    /\ fs w' = fs w
    /\ stdout w' = stdout w ++ [msg_already file_path]
    /\ opened_w w' = opened_w w.
Proof.
  intros Hfs Hn Hm.
  assert (Hmarker : contains marker content = true).
  { destruct Hm as [Hm|Hm]; [|done].
    exact (contains_trans _ _ _ marker_in_DYNAMIC_EXPORT Hm). }
  exists (printed w (msg_already file_path)).
  by rewrite (case_already _ _ _ _ Hfs Hn Hmarker).
Qed.

Lemma C3_witness :
  exists w',
    add_dynamic_export settings_route
      (one_file settings_route (Node (Content updated_route) None))
    = (Return false, w')
    /\ fs w' = {[ settings_route := Node (Content updated_route) None ]}
    /\ stdout w' = [] ++ [msg_already settings_route]
    /\ opened_w w' = [].
Proof.
  apply (C3_marker_present_is_noop
           (one_file settings_route
              (Node (Content updated_route) None))
           settings_route _ _ eq_refl eq_refl).
  left. vm_compute. reflexivity.
Defined.

(** C4: a file whose text has neither the marker nor the trigger is left as
    it is: the call returns [False] and prints the not-applicable line. *)
Theorem C4_no_trigger_is_noop (w : world) (file_path : text) (n : node) (content : text) :
  fs w !! file_path = Some n ->
  on_read n = Content content ->
  contains marker content = false ->
  contains trigger content = false ->
  exists w',
    add_dynamic_export file_path w = (Return false, w')
    /\ fs w' = fs w
    /\ stdout w' = stdout w ++ [msg_not_applicable file_path]
    /\ opened_w w' = opened_w w.
Proof.
  intros Hfs Hn Hm Ht. exists (printed w (msg_not_applicable file_path)).
  by rewrite (case_not_applicable _ _ _ _ Hfs Hn Hm Ht).
Qed.

Lemma C4_witness :
  exists w',
    add_dynamic_export settings_route (one_file settings_route (Node (Content public_route) None))
    = (Return false, w')
    /\ fs w' = {[ settings_route := Node (Content public_route) None ]}
    /\ stdout w' = [] ++ [msg_not_applicable settings_route]
    /\ opened_w w' = [].
Proof.
  apply (C4_no_trigger_is_noop
           (one_file settings_route (Node (Content public_route) None))
           settings_route _ _ eq_refl eq_refl); vm_compute; reflexivity.
Defined.

(** C6: a file whose text has the trigger and lacks the marker, and in which
    the pattern is not found, is left as it is: the call returns [False] and
    prints the no-insertion-point line. *)
Theorem C6_no_insertion_point_is_noop (w : world) (file_path : text) (n : node) (content : text) :
  fs w !! file_path = Some n ->
  on_read n = Content content ->
  contains marker content = false ->
  contains trigger content = true ->
  search import_pattern content = None ->
  exists w',
    add_dynamic_export file_path w = (Return false, w')
    /\ fs w' = fs w
    /\ stdout w' = stdout w ++ [msg_no_insertion_point file_path]
    /\ opened_w w' = opened_w w.
Proof.
  intros Hfs Hn Hm Ht Hs. exists (printed w (msg_no_insertion_point file_path)).
  by rewrite (case_no_insertion_point _ _ _ _ Hfs Hn Hm Ht Hs).
Qed.

Lemma C6_witness :
  exists w',
    add_dynamic_export settings_route (one_file settings_route (Node (Content require_route) None))
    = (Return false, w')
    /\ fs w' = {[ settings_route := Node (Content require_route) None ]}
    /\ stdout w' = [] ++ [msg_no_insertion_point settings_route]
    /\ opened_w w' = [].
Proof.
  apply (C6_no_insertion_point_is_noop
           (one_file settings_route (Node (Content require_route) None))
           settings_route _ _ eq_refl eq_refl); vm_compute; reflexivity.
Defined.

(** C7: the marker is tested before the trigger: a file whose text has the
    marker gets the already-has line and [False] whether or not it has the
    trigger, and the not-applicable line is not what is printed. *)
Theorem C7_marker_tested_before_trigger
    (w : world) (file_path : text) (n : node) (content : text) (has_trigger : bool) :
  fs w !! file_path = Some n ->
  on_read n = Content content ->
  contains marker content = true ->
  contains trigger content = has_trigger ->
  exists w',
    add_dynamic_export file_path w = (Return false, w')
    /\ stdout w' = stdout w ++ [msg_already file_path]
    /\ msg_already file_path <> msg_not_applicable file_path
    /\ fs w' = fs w.
Proof.
  intros Hfs Hn Hm _. exists (printed w (msg_already file_path)).
  rewrite (case_already _ _ _ _ Hfs Hn Hm).
  split_and!; try done. apply msg_already_not_applicable.
Qed.

Lemma C7_witness :
  exists w',
    add_dynamic_export settings_route (one_file settings_route (Node (Content static_route) None))
    = (Return false, w')
    /\ stdout w' = [] ++ [msg_already settings_route]
    /\ msg_already settings_route <> msg_not_applicable settings_route
    /\ fs w' = {[ settings_route := Node (Content static_route) None ]}.
Proof.
  apply (C7_marker_tested_before_trigger
           (one_file settings_route (Node (Content static_route) None))
           settings_route _ static_route false eq_refl eq_refl); vm_compute; reflexivity.
Defined.

(** C9: the already-present test looks for the substring
    [export const dynamic] only. Any text that has it gets the already-has
    line and is left as it is; there are such texts, with the export set to
    another value or named in a comment, that have neither the inserted text
    nor its export line. *)
Theorem C9_substring_test (w : world) (file_path : text) (n : node) (content : text) :
  (fs w !! file_path = Some n ->
   on_read n = Content content ->
   contains (str "export const dynamic") content = true ->
   exists w',
     add_dynamic_export file_path w = (Return false, w')
     /\ fs w' = fs w
     /\ stdout w' = stdout w ++ [msg_already file_path]
     /\ opened_w w' = opened_w w)
  /\ Forall (fun sample =>
       contains (str "export const dynamic") sample = true
       /\ contains DYNAMIC_EXPORT sample = false
       /\ contains (str "export const dynamic = 'force-dynamic'") sample = false)
     [other_value_route; comment_route].
Proof.
  split.
  - intros Hfs Hn Hm. exists (printed w (msg_already file_path)).
    by rewrite (case_already _ _ _ _ Hfs Hn Hm).
  - repeat constructor; vm_compute; reflexivity.
Qed.

Lemma C9_witness :
  exists w',
    add_dynamic_export settings_route (one_file settings_route (Node (Content comment_route) None))
    = (Return false, w')
    /\ fs w' = {[ settings_route := Node (Content comment_route) None ]}
    /\ stdout w' = [] ++ [msg_already settings_route]
    /\ opened_w w' = [].
Proof.
  apply (proj1 (C9_substring_test
           (one_file settings_route (Node (Content comment_route) None))
           settings_route _ comment_route) eq_refl eq_refl).
  vm_compute. reflexivity.
Defined.

(** C5, as stated, at a path with no file, on a standard output whose
    encoding is ASCII: [FileNotFoundError] is caught, the print of its
    handler raises [UnicodeEncodeError], which leaves [add_dynamic_export];
    [main] stops at the first route, after the header, with no summary. *)
Lemma C5_counterexample :
  add_dynamic_export_try_in ascii_stdout settings_route (World ∅ [] [])
  = (Raise (FileNotFoundError settings_route), World ∅ [] [])
  /\ add_dynamic_export_in ascii_stdout settings_route (World ∅ [] [])
     = (Raise (OtherException
                 (str "'ascii' codec can't encode character '\u2717' in position 2: ordinal not in range(128)")),
        World ∅ [] [])
  /\ main_in ascii_stdout (World ∅ [] [])
     = (Raise (OtherException
                 (str "'ascii' codec can't encode character '\u2717' in position 2: ordinal not in range(128)")),
        World ∅ [header_line] []).
Proof.
  split_and!; vm_compute; reflexivity.
Qed.

(** C5, amended: an exception of the try body (file not found, an error of
    [open], of the read or of the write, a failed print of the body) is
    caught in [add_dynamic_export], whose handler prints the not-found line
    or the error line with the message; if standard output takes that line
    the call returns [False], and if not the exception of that print leaves
    the call. In a run in which standard output takes every line, every
    call returns a value after one printed line, and [main] returns after
    the header, one line per route and the summary, whatever the files and
    the writes do. *)
Theorem C5_errors_caught_when_stdout_accepts (E : env) (w : world) (file_path : text) :
  (forall e w1,
     add_dynamic_export_try_in E file_path w = (Raise e, w1) ->
     add_dynamic_export_in E file_path w
     = match print_raises E match e with
                            | FileNotFoundError _ => msg_not_found file_path
                            | OtherException msg => msg_error file_path msg
                            end with
       | Some msg' => (Raise (OtherException msg'), w1)
       | None =>
           (Return false,
            printed w1 match e with
                       | FileNotFoundError _ => msg_not_found file_path
                       | OtherException msg => msg_error file_path msg
                       end)
       end)
  /\ (stdout_accepts E ->
      (exists updated w' line,
         add_dynamic_export_in E file_path w = (Return updated, w')
         /\ stdout w' = stdout w ++ [line])
      /\ (fs w !! file_path = None ->
          add_dynamic_export_in E file_path w
          = (Return false, printed w (msg_not_found file_path)))
      /\ (exists w' printed_lines updated_count,
            main_in E w = (Return tt, w')
            /\ stdout w' = stdout w ++ [header_line] ++ printed_lines
                           ++ [done_line updated_count]
            /\ length printed_lines = length API_ROUTES)).
Proof.
  split.
  - intros e w1. apply handler_run.
  - intros Hok. split_and!.
    + rewrite (add_dynamic_export_in_effect E w file_path Hok). by eexists _, _, _.
    + intros Hnone. rewrite (add_dynamic_export_in_effect E w file_path Hok), Hnone.
      cbn. by rewrite app_nil_r.
    + destruct (main_in_effects E w Hok) as (w' & Hmain & Hout & _).
      eexists w', _, _. split_and!; [done|exact Hout|]. by rewrite length_map.
Qed.

Lemma C5_witness :
  add_dynamic_export_in (disk_full settings_route 100) settings_route
    (one_file settings_route (Node (Content plain_route) None))
  = (Return false,
     printed (World {[ settings_route := Node (Content (take 100 updated_route)) None ]}
                    [] [settings_route])
       (msg_error settings_route (str "[Errno 28] No space left on device")))
  /\ add_dynamic_export_in (disk_full settings_route 100) other_file
       (one_file settings_route (Node (Content plain_route) None))
     = (Return false,
        printed (one_file settings_route (Node (Content plain_route) None))
          (msg_not_found other_file)).
Proof.
  split.
  - apply (proj1 (C5_errors_caught_when_stdout_accepts (disk_full settings_route 100)
             (one_file settings_route (Node (Content plain_route) None)) settings_route)
             (OtherException (str "[Errno 28] No space left on device"))
             (World {[ settings_route := Node (Content (take 100 updated_route)) None ]}
                    [] [settings_route])).
    vm_compute. reflexivity.
  - apply (proj2 (C5_errors_caught_when_stdout_accepts (disk_full settings_route 100)
             (one_file settings_route (Node (Content plain_route) None)) other_file)).
    + intros line. reflexivity.
    + vm_compute. reflexivity.
Defined.

(** C8: [main] opens for writing only paths of [API_ROUTES], a list of
    fifteen paths, and leaves every path outside the list as it was. *)
Theorem C8_only_listed_routes_written (w : world) :
  length API_ROUTES = 15
  /\ (main w).1 = Return tt
  /\ (forall q, q ∈ opened_w (main w).2 -> q ∈ opened_w w \/ q ∈ API_ROUTES)
  /\ (forall q, q ∉ API_ROUTES -> fs (main w).2 !! q = fs w !! q).
Proof.
  destruct (main_summary w) as (w' & ls & Hmain & _ & _ & Hout_l & _ & _ & Hlog).
  rewrite Hmain. by split_and!.
Qed.

Lemma C8_witness :
  (settings_route ∈ opened_w sample_world \/ settings_route ∈ API_ROUTES)
  /\ fs (main sample_world).2 !! other_file = fs sample_world !! other_file.
Proof.
  split.
  - apply (C8_only_listed_routes_written sample_world).
    apply (bool_decide_unpack _). vm_compute. reflexivity.
  - apply (C8_only_listed_routes_written sample_world).
    apply (bool_decide_unpack _). vm_compute. reflexivity.
Defined.

(** C10: the inserted text has the tested substring, so a call on a file
    that a call has just rewritten returns [False] and leaves it as it is;
    and a second run of [main] reports zero updated files and leaves every
    file as the first run left it. *)
Theorem C10_second_run_changes_nothing (w : world) (file_path : text) :
  (forall content m, contains marker (spliced content m) = true)
  /\ (forall w1,
        add_dynamic_export file_path w = (Return true, w1) ->
        exists w2,
          add_dynamic_export file_path w1 = (Return false, w2)
          /\ fs w2 = fs w1
          /\ stdout w2 = stdout w1 ++ [msg_already file_path])
  /\ (main (main w).2).1 = Return tt
  /\ fs (main (main w).2).2 = fs (main w).2
  /\ last (stdout (main (main w).2).2) = Some (done_line 0).
Proof.
  split_and!.
  - apply spliced_has_marker.
  - intros w1 Hrun.
    destruct (add_dynamic_export_summary w file_path) as (w1' & line & Heq & _ & _ & _ & Hyes & _).
    rewrite Hrun in Heq. injection Heq as Hb <-.
    destruct (Hyes (eq_sym Hb)) as (n & content & m & _ & _ & _ & _ & Hfs').
    exists (printed w1 (msg_already file_path)).
    rewrite (case_already w1 file_path (Node (Content (spliced content m)) None)
               (spliced content m)); [done| |done|apply spliced_has_marker].
    by rewrite Hfs', lookup_insert_eq.
  - destruct (main_summary (main w).2) as (w2 & ls & Hmain & _). by rewrite Hmain.
  - destruct (main_summary (main w).2) as (w2 & ls & Hmain & _ & _ & Hout_l & Hne & _).
    rewrite Hmain. cbn [snd]. apply map_eq. intros q.
    destruct (decide (q ∈ API_ROUTES)) as [Hq|Hq].
    + apply Hne. by apply none_eligible_after_main.
    + by apply Hout_l.
  - destruct (main_summary (main w).2) as (w2 & ls & Hmain & Hout & _).
    rewrite Hmain. cbn [snd]. rewrite Hout.
    rewrite (filter_none _ _ (none_eligible_after_main w)).
    rewrite !app_assoc. apply last_snoc_line.
Qed.

Lemma C10_witness :
  exists w2,
    add_dynamic_export settings_route
      (add_dynamic_export settings_route
         (one_file settings_route (Node (Content plain_route) None))).2
    = (Return false, w2)
    /\ fs w2 = fs (add_dynamic_export settings_route
                     (one_file settings_route (Node (Content plain_route) None))).2
    /\ stdout w2 = stdout (add_dynamic_export settings_route
                     (one_file settings_route (Node (Content plain_route) None))).2
                   ++ [msg_already settings_route].
Proof.
  apply (C10_second_run_changes_nothing
           (one_file settings_route (Node (Content plain_route) None)) settings_route).
  vm_compute. reflexivity.
Defined.


(** * Further properties *)

(** ** Completeness of the matcher *)

Section Completeness.

Context {R : Type}.

Lemma or_else_is_Some_l (a : option R) b : is_Some a -> is_Some (or_else a b).
Proof. intros [x ->]. by exists x. Qed.

Lemma or_else_is_Some_r (a : option R) b : is_Some (b tt) -> is_Some (or_else a b).
Proof. intros H. destruct a as [x|]; [by exists x|done]. Qed.

Lemma rep_greedy_complete cs (u : text) :
  forall t' min pos (k : nat -> text -> option R),
    Forall (fun c => in_charset cs c = true) u -> min <= length u ->
    is_Some (k (pos + length u) t') ->
    is_Some (rep_greedy cs min pos (u ++ t') k).
Proof.
  induction u as [|c u IH]; intros t' min pos k Hu Hmin Hk.
  - simpl in *. rewrite Nat.add_0_r in Hk.
    assert (min = 0) as -> by lia.
    destruct t' as [|c t']; simpl; [done|].
    destruct (in_charset cs c); [|done]. by apply or_else_is_Some_r.
  - apply Forall_cons in Hu as [Hc Hu]. simpl. rewrite Hc.
    apply or_else_is_Some_l, IH; [done|simpl in Hmin; lia|].
    by simpl in Hk; rewrite Nat.add_succ_r in Hk.
Qed.

Lemma rep_lazy_complete cs (u : text) :
  forall t' min pos (k : nat -> text -> option R),
    Forall (fun c => in_charset cs c = true) u -> min <= length u ->
    is_Some (k (pos + length u) t') ->
    is_Some (rep_lazy cs min pos (u ++ t') k).
Proof.
  induction u as [|c u IH]; intros t' min pos k Hu Hmin Hk.
  - simpl in *. rewrite Nat.add_0_r in Hk.
    assert (min = 0) as -> by lia.
    destruct t'; simpl; by apply or_else_is_Some_l.
  - apply Forall_cons in Hu as [Hc Hu].
    assert (Hrec : is_Some (rep_lazy cs (Nat.pred min) (S pos) (u ++ t') k)).
    { apply IH; [done|simpl in Hmin; lia|].
      by simpl in Hk; rewrite Nat.add_succ_r in Hk. }
    destruct min; simpl; rewrite Hc; [|done].
    by apply or_else_is_Some_r.
Qed.

Lemma exec_complete r pos t gs pos' t' gs' :
  Matches r pos t gs pos' t' gs' ->
  forall k : cont, is_Some (k pos' t' gs') -> is_Some (@exec R r pos t gs k).
Proof.
  induction 1 as [p pos t' gs|cs min greedy u pos t' gs Hu Hmin
                 |r1 r2 pos t gs pos1 t1 gs1 pos2 t2 gs2 _ IH1 _ IH2
                 |r1 r2 pos t gs pos' t' gs' _ IH|r1 r2 pos t gs pos' t' gs' _ IH
                 |r pos t gs pos' t' gs' _ IH|r pos t gs
                 |n r pos t gs pos' t' gs' _ IH]; intros k Hk; simpl.
  - by rewrite starts_with_app, drop_app_length.
  - destruct greedy; [by apply rep_greedy_complete|by apply rep_lazy_complete].
  - apply IH1, IH2, Hk.
  - by apply or_else_is_Some_l, IH.
  - by apply or_else_is_Some_r, IH.
  - by apply or_else_is_Some_l, IH.
  - by apply or_else_is_Some_r.
  - by apply IH.
Qed.

End Completeness.

Lemma search_from_complete r (pre suf : text) :
  (forall pos, is_Some (match_at r pos suf)) ->
  forall pos, is_Some (search_from r pos (pre ++ suf)).
Proof.
  intros Hsuf. induction pre as [|c pre IH]; intros pos.
  - destruct suf as [|c suf]; simpl.
    + destruct (Hsuf pos) as [m ->]. by exists m.
    + destruct (Hsuf pos) as [m ->]. by exists m.
  - simpl. destruct (match_at r pos (c :: pre ++ suf)) as [m|]; [by exists m|].
    apply IH.
Qed.

(** ** When the pattern is found *)

Lemma export_head_matches decl pos gs :
  export_head decl ->
  exists pos' t' gs', Matches export_pattern pos decl gs pos' t' gs'.
Proof.
  intros (ws & rest & Hne & Hws & [->|[(ws' & Hne' & Hws' & ->)| ->]]).
  - eexists _, _, _. apply M_Alt_l.
    eapply M_Seq; [apply M_Lit|].
    eapply M_Seq; [apply M_Rep; [exact Hws|destruct ws; [done|simpl; lia]]|].
    eapply M_Seq; [apply M_Opt_none|apply M_Lit].
  - eexists _, _, _. apply M_Alt_l.
    eapply M_Seq; [apply M_Lit|].
    eapply M_Seq; [apply M_Rep; [exact Hws|destruct ws; [done|simpl; lia]]|].
    eapply M_Seq; [|apply M_Lit].
    apply M_Opt_some, M_Group.
    eapply M_Seq; [apply M_Lit|].
    apply M_Rep; [exact Hws'|destruct ws'; [done|simpl; lia]].
  - eexists _, _, _. apply M_Alt_r.
    eapply M_Seq; [apply M_Lit|].
    eapply M_Seq; [apply M_Rep; [exact Hws|destruct ws; [done|simpl; lia]]|].
    apply M_Lit.
Qed.

Lemma insertion_point_found (content : text) :
  has_insertion_point content -> is_Some (search import_pattern content).
Proof.
  intros (pre & ws & body & nls & decl & -> & Hne & Hws & Hnls & Hdecl).
  rewrite <- !app_assoc. apply search_from_complete. intros pos.
  destruct (export_head_matches decl
              (pos + length (str "import") + length ws + length body + length [LF] + length nls)
              [(2, (pos + length (str "import") + length ws + length body + length [LF],
                    pos + length (str "import") + length ws + length body + length [LF]
                    + length nls));
               (1, (pos, pos + length (str "import") + length ws + length body + length [LF]))]
              Hdecl)
    as (pos' & t' & gs' & HM).
  unfold match_at. eapply exec_complete; [|done].
  unfold import_pattern.
  eapply M_Seq.
  { apply M_Group.
    eapply M_Seq; [apply M_Lit|].
    eapply M_Seq; [apply M_Rep; [exact Hws|destruct ws; [done|simpl; lia]]|].
    eapply M_Seq; [apply (M_Rep AnyChar 0 false body); [by apply Forall_forall|lia]|].
    apply M_Lit. }
  eapply M_Seq.
  { apply M_Group. apply (M_Rep (Chr LF) 0 true nls); [|lia].
    eapply Forall_impl; [exact Hnls|]. intros c ->. apply N.eqb_refl. }
  apply M_Group. exact HM.
Qed.

Lemma insertion_point_shape (content : text) :
  is_Some (search import_pattern content) -> has_insertion_point content.
Proof.
  intros [m Hm].
  destruct (import_pattern_match _ _ Hm)
    as (pre & ws & body & nls & decl & Hc & Hne & Hws & Hnls & Hdecl & _).
  by exists pre, ws, body, nls, decl.
Qed.

(** ** One call as an effect on the node of its path *)

Lemma add_dynamic_export_effect (w : world) (p : text) :
  add_dynamic_export p w =
    (Return (e_updated (effect_of (fs w !! p) p)),
     World (apply_node p (e_node (effect_of (fs w !! p) p)) (fs w))
           (stdout w ++ [e_line (effect_of (fs w !! p) p)])
           (opened_w w ++ e_opened (effect_of (fs w !! p) p))).
Proof.
  destruct (fs w !! p) as [[r o]|] eqn:Hfs; cbn [effect_of].
  2: { rewrite (case_not_found _ _ Hfs). cbn. by rewrite app_nil_r. }
  destruct r as [content|msg].
  2: { rewrite (case_read_fails _ _ _ msg Hfs eq_refl). cbn. by rewrite app_nil_r. }
  destruct (contains marker content) eqn:Hm.
  { rewrite (case_already _ _ _ content Hfs eq_refl Hm). cbn. by rewrite app_nil_r. }
  destruct (contains trigger content) eqn:Ht; cbn [negb].
  2: { rewrite (case_not_applicable _ _ _ content Hfs eq_refl Hm Ht). cbn.
       by rewrite app_nil_r. }
  destruct (search import_pattern content) as [m|] eqn:Hs.
  2: { rewrite (case_no_insertion_point _ _ _ content Hfs eq_refl Hm Ht Hs). cbn.
       by rewrite app_nil_r. }
  destruct o as [msg|].
  - by rewrite (case_write_refused _ _ _ content m msg Hfs eq_refl Hm Ht Hs eq_refl).
  - by rewrite (case_added _ _ _ content m Hfs eq_refl Hm Ht Hs eq_refl).
Qed.

Lemma alone_effect (w : world) (p : text) :
  alone w p =
    (Return (e_updated (effect_of (fs w !! p) p)),
     World (apply_node p (e_node (effect_of (fs w !! p) p)) (fs w))
           [e_line (effect_of (fs w !! p) p)]
           (e_opened (effect_of (fs w !! p) p))).
Proof. unfold alone. by rewrite add_dynamic_export_effect. Qed.


Lemma loop_effects (l : list text) :
  NoDup l ->
  forall k w,
  exists w',
    for_in l loop_body k w
    = (Return (k + length (List.filter (fun p => e_updated (effect_of (fs w !! p) p)) l)), w')
    /\ stdout w' = stdout w ++ List.map (fun p => e_line (effect_of (fs w !! p) p)) l
    /\ opened_w w' = opened_w w ++ List.concat (List.map (fun p => e_opened (effect_of (fs w !! p) p)) l)
    /\ (forall q, fs w' !! q =
                    if decide (q ∈ l)
                    then from_option Some (fs w !! q) (e_node (effect_of (fs w !! q) q))
                    else fs w !! q).
Proof.
  induction 1 as [|x l Hx Hnd IH]; intros k w.
  { exists w. cbn. unfold ret. rewrite Nat.add_0_r, !app_nil_r. by split_and!. }
  pose proof (add_dynamic_export_effect w x) as Hstep.
  set (e := effect_of (fs w !! x) x) in *.
  set (w1 := World (apply_node x (e_node e) (fs w)) (stdout w ++ [e_line e])
                   (opened_w w ++ e_opened e)) in *.
  assert (Hsame : forall q, q ∈ l -> fs w1 !! q = fs w !! q).
  { intros q Hq. subst w1. cbn [fs]. rewrite lookup_apply_node.
    destruct (decide (q = x)) as [->|]; [done|done]. }
  destruct (IH (k + (if e_updated e then 1 else 0)) w1) as (w' & Hloop & Hout & Hlog & Hfs).
  exists w'. split_and!.
  - cbn [for_in]. unfold bind at 1.
    assert (Hbody : loop_body x k w = (Return (k + (if e_updated e then 1 else 0)), w1)).
    { unfold loop_body, mbind, M_bind, bind, ret. rewrite Hstep.
      destruct (e_updated e); do 2 f_equal; lia. }
    rewrite Hbody, Hloop. cbn [List.filter]. fold e.
    rewrite (List.filter_ext_in (fun p => e_updated (effect_of (fs w1 !! p) p))
                                (fun p => e_updated (effect_of (fs w !! p) p)) l).
    2: { intros q Hq. rewrite Hsame; [done|]. by apply list_elem_of_In. }
    destruct (e_updated e); cbn [length]; do 2 f_equal; lia.
  - rewrite Hout. subst w1. cbn [stdout List.map]. fold e. rewrite <- app_assoc. cbn.
    do 2 f_equal. apply List.map_ext_in. intros q Hq.
    rewrite Hsame; [done|]. by apply list_elem_of_In.
  - rewrite Hlog. subst w1. cbn [opened_w List.map List.concat]. fold e.
    rewrite <- app_assoc. do 3 f_equal. apply List.map_ext_in. intros q Hq.
    rewrite Hsame; [done|]. by apply list_elem_of_In.
  - intros q. rewrite Hfs. destruct (decide (q ∈ l)) as [Hq|Hq].
    + rewrite (Hsame q Hq). destruct (decide (q ∈ x :: l)) as [|Hn]; [done|].
      exfalso. apply Hn. by right.
    + subst w1. cbn [fs]. rewrite lookup_apply_node.
      destruct (decide (q = x)) as [->|Hqx].
      * fold e. destruct (decide (x ∈ x :: l)) as [|Hn]; [done|].
        exfalso. apply Hn. by left.
      * destruct (decide (q ∈ x :: l)) as [Hin|]; [|done].
        apply elem_of_cons in Hin as [?|?]; done.
Qed.

Lemma main_effects (w : world) :
  exists w',
    main w = (Return tt, w')
    /\ stdout w' = stdout w ++ [header_line]
         ++ List.map (fun p => e_line (effect_of (fs w !! p) p)) API_ROUTES
         ++ [done_line (length (List.filter (fun p => e_updated (effect_of (fs w !! p) p))
                                            API_ROUTES))]
    /\ opened_w w' = opened_w w
         ++ List.concat (List.map (fun p => e_opened (effect_of (fs w !! p) p)) API_ROUTES)
    /\ (forall q, fs w' !! q =
                    if decide (q ∈ API_ROUTES)
                    then from_option Some (fs w !! q) (e_node (effect_of (fs w !! q) q))
                    else fs w !! q).
Proof.
  destruct (loop_effects API_ROUTES API_ROUTES_NoDup 0 (printed w header_line))
    as (w1 & Hloop & Hout & Hlog & Hfs).
  cbn [fs stdout opened_w printed] in *.
  eexists. split_and!.
  - rewrite main_unfold, Hloop. reflexivity.
  - cbn [stdout printed]. rewrite Hout. by rewrite <- !app_assoc.
  - exact Hlog.
  - exact Hfs.
Qed.

(** ** Further properties of [add_dynamic_export] *)

Lemma marker_occurs_in_insertion (A B : text) :
  occurs_at marker (A ++ DYNAMIC_EXPORT ++ B) (length A + S (length comment_line + 1)) = true.
Proof.
  replace (A ++ DYNAMIC_EXPORT ++ B)
    with ((A ++ [LF] ++ comment_line ++ [LF]) ++ marker
          ++ (str " = 'force-dynamic'" ++ [LF] ++ B)).
  - replace (length A + S (length comment_line + 1))
      with (length (A ++ [LF] ++ comment_line ++ [LF])).
    + apply occurs_at_app.
    + rewrite !length_app. cbn [length]. lia.
  - rewrite DYNAMIC_EXPORT_lines, <- !app_assoc. reflexivity.
Qed.

(** X1: a successful call writes the old text with [DYNAMIC_EXPORT] put in
    at the end of group 1. The part before it ends with a line feed and has
    an [import]; the part after it is a run of line feeds and then an export
    declaration that the pattern accepts; the inserted text occurs once, at
    the insertion index, and the tested substring occurs once, 60 characters
    further. *)
Theorem X1_success_inserts_at_line_boundary
    (w : world) (file_path : text) (n : node) (content : text) (m : match_obj) :
  fs w !! file_path = Some n ->
  on_read n = Content content ->
  on_write n = None ->
  contains marker content = false ->
  contains trigger content = true ->
  search import_pattern content = Some m ->
  exists A B,
    content = A ++ B
    /\ m_end m 1 = Z.of_nat (length A)
    /\ (add_dynamic_export file_path w).1 = Return true
    /\ fs (add_dynamic_export file_path w).2 !! file_path
       = Some (Node (Content (A ++ DYNAMIC_EXPORT ++ B)) None)
    /\ (exists A', A = A' ++ [LF])
    /\ contains (str "import") A = true
    /\ (exists nls decl, B = nls ++ decl /\ Forall (fun c => c = LF) nls /\ export_head decl)
    /\ (forall i, occurs_at DYNAMIC_EXPORT (A ++ DYNAMIC_EXPORT ++ B) i = true <-> i = length A)
    /\ (forall i, occurs_at marker (A ++ DYNAMIC_EXPORT ++ B) i = true <-> i = length A + 60).
Proof.
  intros Hfs Hn Hw Hm Ht Hs.
  destruct (import_pattern_match _ _ Hs)
    as (pre & ws & body & nls & decl & Hc & Hws & Hsp & Hnls & Hdecl & Hend).
  exists (pre ++ str "import" ++ ws ++ body ++ [LF]), (nls ++ decl).
  rewrite (case_added _ _ _ _ _ Hfs Hn Hm Ht Hs Hw). cbn [fst snd fs].
  rewrite lookup_insert_eq. unfold spliced. rewrite Hend.
  rewrite Hc at 2 3.
  destruct (slice_at_app (pre ++ str "import" ++ ws ++ body ++ [LF]) (nls ++ decl)) as [-> ->].
  split_and!; try done.
  - exists (pre ++ str "import" ++ ws ++ body). by rewrite <- !app_assoc.
  - apply contains_app.
  - by exists nls, decl.
  - intros i. apply DYNAMIC_EXPORT_occurs_once. by rewrite <- Hc.
  - intros i. split.
    + intros Hi. apply marker_occurs_once in Hi; [|by rewrite <- Hc].
      rewrite Hi. reflexivity.
    + intros ->. apply (marker_occurs_in_insertion _ (nls ++ decl)).
Qed.

Lemma X1_witness :
  exists A B,
    plain_route = A ++ B
    /\ m_end plain_route_match 1 = Z.of_nat (length A)
    /\ (add_dynamic_export settings_route
          (one_file settings_route (Node (Content plain_route) None))).1 = Return true
    /\ fs (add_dynamic_export settings_route
            (one_file settings_route (Node (Content plain_route) None))).2 !! settings_route
       = Some (Node (Content (A ++ DYNAMIC_EXPORT ++ B)) None)
    /\ (exists A', A = A' ++ [LF])
    /\ contains (str "import") A = true
    /\ (exists nls decl, B = nls ++ decl /\ Forall (fun c => c = LF) nls /\ export_head decl)
    /\ (forall i, occurs_at DYNAMIC_EXPORT (A ++ DYNAMIC_EXPORT ++ B) i = true <-> i = length A)
    /\ (forall i, occurs_at marker (A ++ DYNAMIC_EXPORT ++ B) i = true <-> i = length A + 60).
Proof.
  apply (X1_success_inserts_at_line_boundary
           (one_file settings_route (Node (Content plain_route) None))
           settings_route _ plain_route plain_route_match eq_refl eq_refl eq_refl);
    vm_compute; reflexivity.
Defined.

(** X2: [import_pattern] is found in a text exactly when the text has, in
    this order, [import], white space, any text, a line feed, a run of line
    feeds, and [export] with white space and [function], [async function]
    or [const]. *)
Theorem X2_pattern_found_iff (content : text) :
  is_Some (search import_pattern content) <-> has_insertion_point content.
Proof.
  split; [apply insertion_point_shape|apply insertion_point_found].
Qed.

Lemma X2_witness : has_insertion_point plain_route.
Proof.
  apply (proj1 (X2_pattern_found_iff plain_route)).
  exists plain_route_match. vm_compute. reflexivity.
Defined.

Lemma export_head_has_export decl : export_head decl -> contains (str "export") decl = true.
Proof.
  intros (ws & rest & _ & _ & [->|[(ws' & _ & _ & ->)| ->]]);
    apply (contains_app _ []).
Qed.

(** X3: a file that has the trigger and lacks the marker, and whose text has
    no [import], no [export] or no line feed, is never written: the call
    prints the no-insertion-point line and returns [False]. *)
Theorem X3_no_import_no_insertion
    (w : world) (file_path : text) (n : node) (content : text) :
  fs w !! file_path = Some n ->
  on_read n = Content content ->
  contains marker content = false ->
  contains trigger content = true ->
  contains (str "import") content = false
  \/ contains (str "export") content = false
  \/ LF ∉ content ->
  add_dynamic_export file_path w
  = (Return false, printed w (msg_no_insertion_point file_path)).
Proof.
  intros Hfs Hn Hm Ht Hlack.
  apply (case_no_insertion_point _ _ _ _ Hfs Hn Hm Ht).
  destruct (search import_pattern content) as [m|] eqn:Hs; [exfalso|done].
  destruct (import_pattern_match _ _ Hs)
    as (pre & ws & body & nls & decl & Hc & _ & _ & _ & Hdecl & _).
  destruct Hlack as [Hi|[He|Hl]].
  - rewrite Hc, <- !app_assoc, contains_app in Hi. done.
  - pose proof (export_head_has_export _ Hdecl) as Hex.
    assert (Hin : contains decl content = true).
    { rewrite Hc.
      replace ((pre ++ str "import" ++ ws ++ body ++ [LF]) ++ nls ++ decl)
        with (((pre ++ str "import" ++ ws ++ body ++ [LF]) ++ nls) ++ decl ++ [])
        by (by rewrite app_nil_r, <- (app_assoc _ nls decl)).
      apply contains_app. }
    by rewrite (contains_trans _ _ _ Hex Hin) in He.
  - apply Hl. rewrite Hc. rewrite !elem_of_app. left. right. right. right. right.
    by apply list_elem_of_singleton.
Qed.

Lemma X3_witness :
  add_dynamic_export settings_route (one_file settings_route (Node (Content require_route) None))
  = (Return false,
     printed (one_file settings_route (Node (Content require_route) None))
       (msg_no_insertion_point settings_route)).
Proof.
  apply (X3_no_import_no_insertion
           (one_file settings_route (Node (Content require_route) None))
           settings_route _ require_route eq_refl eq_refl);
    [vm_compute; reflexivity|vm_compute; reflexivity|].
  left. vm_compute. reflexivity.
Defined.

(** X4: a file that passes every check but cannot be opened for writing is
    left as it is: the call returns [False] and prints the error line with
    the message of the exception. *)
Theorem X4_write_refused_keeps_file
    (w : world) (file_path : text) (n : node) (content msg : text) :
  fs w !! file_path = Some n ->
  on_read n = Content content ->
  contains marker content = false ->
  contains trigger content = true ->
  is_Some (search import_pattern content) ->
  on_write n = Some msg ->
  exists w',
    add_dynamic_export file_path w = (Return false, w')
    /\ fs w' = fs w
    /\ stdout w' = stdout w ++ [msg_error file_path msg]
    /\ opened_w w' = opened_w w ++ [file_path]
    /\ eligible w file_path = false.
Proof.
  intros Hfs Hn Hm Ht [m Hs] Hw. eexists.
  rewrite (case_write_refused _ _ _ _ _ _ Hfs Hn Hm Ht Hs Hw).
  split_and!; try done.
  unfold eligible. rewrite Hfs. destruct n as [r o]. simpl in *. subst. done.
Qed.

Lemma X4_witness :
  exists w',
    add_dynamic_export settings_route (one_file settings_route read_only_node)
    = (Return false, w')
    /\ fs w' = fs (one_file settings_route read_only_node)
    /\ stdout w' = [] ++ [msg_error settings_route (str "[Errno 13] Permission denied")]
    /\ opened_w w' = [] ++ [settings_route]
    /\ eligible (one_file settings_route read_only_node) settings_route = false.
Proof.
  apply (X4_write_refused_keeps_file (one_file settings_route read_only_node)
           settings_route read_only_node plain_route _ eq_refl eq_refl);
    [vm_compute; reflexivity|vm_compute; reflexivity| |reflexivity].
  exists plain_route_match. vm_compute. reflexivity.
Defined.

Lemma not_added_line (p line : text) (sym : N) :
  line !! 2 = Some sym -> sym <> 10003%N -> line <> msg_added p.
Proof.
  intros Hl Hs ->. apply Hs.
  assert (msg_added p !! 2 = Some 10003%N) as Ha by reflexivity.
  congruence.
Qed.

Lemma effect_in_line_added (E : env) (o : option node) (p : text) :
  e_updated (effect_in E o p) = true <-> e_line (effect_in E o p) = msg_added p.
Proof.
  assert (Hcircle : forall line, line !! 2 = Some 9675%N -> false = true <-> line = msg_added p).
  { intros line Hl. split; [done|]. intros H. by eapply not_added_line in H. }
  assert (Hcross : forall line, line !! 2 = Some 10007%N -> false = true <-> line = msg_added p).
  { intros line Hl. split; [done|]. intros H. by eapply not_added_line in H. }
  unfold effect_in. repeat case_match; cbn [e_updated e_line];
    first [ done | by apply Hcircle | by apply Hcross ].
Qed.

Lemma effect_in_cases (E : env) (w : world) (p : text) :
  (completes E w p = true
   /\ exists content m,
        fs w !! p = Some (Node (Content content) None)
        /\ search import_pattern content = Some m
        /\ e_node (effect_in E (fs w !! p) p) = Some (Node (Content (spliced content m)) None))
  \/ (completes E w p = false /\ cut_short E w p = true
      /\ exists rest, e_node (effect_in E (fs w !! p) p) = Some (Node rest None))
  \/ (completes E w p = false /\ cut_short E w p = false
      /\ e_node (effect_in E (fs w !! p) p) = None).
Proof.
  destruct (completes E w p) eqn:Hc.
  { left. split; [done|]. by apply completes_node. }
  right. destruct (cut_short E w p) eqn:Hcut.
  2: { right. split_and!; try done. by apply untouched_node. }
  left. split_and!; try done.
  unfold cut_short, effect_in in *.
  destruct (fs w !! p) as [[[content|msg] [o|]]|]; try done.
  destruct (contains marker content); [done|].
  destruct (contains trigger content); [|done].
  destruct (search import_pattern content) as [m|]; [|done].
  destruct (write_cut E p (spliced content m)) as [[rest msg]|]; [|done].
  by exists rest.
Qed.

(** X5: in a run in which standard output takes every line, the value that
    [add_dynamic_export] returns tells what the file holds. The call prints
    one line and returns [True] exactly when that line is the added line,
    and then the file holds its old text with the inserted text put in.
    When it returns [False] no file has changed, unless the write failed
    after the file was opened: then the file is left with what that write
    put in it. Where no write fails so, the call returns [True] exactly
    when the node of the file is not what it was. *)
Theorem X5_return_value_and_file (E : env) (w : world) (file_path : text) :
  stdout_accepts E ->
  exists updated w' line,
    add_dynamic_export_in E file_path w = (Return updated, w')
    /\ stdout w' = stdout w ++ [line]
    /\ (updated = true <-> line = msg_added file_path)
    /\ (updated = true ->
        exists content m,
          fs w !! file_path = Some (Node (Content content) None)
          /\ search import_pattern content = Some m
          /\ fs w' = <[file_path := Node (Content (spliced content m)) None]> (fs w)
          /\ fs w' !! file_path <> fs w !! file_path)
    /\ (updated = false ->
        fs w' = fs w
        \/ (cut_short E w file_path = true
            /\ exists rest, fs w' = <[file_path := Node rest None]> (fs w)))
    /\ (cut_short E w file_path = false ->
        (updated = true <-> fs w' !! file_path <> fs w !! file_path)
        /\ (updated = false -> fs w' = fs w)).
Proof.
  intros Hok. rewrite (add_dynamic_export_in_effect E w file_path Hok).
  eexists _, _, _. split; [reflexivity|]. split; [reflexivity|]. cbn [fs].
  pose proof (effect_in_line_added E (fs w !! file_path) file_path) as Hline.
  rewrite effect_in_completes in Hline |- *.
  destruct (effect_in_cases E w file_path)
    as [(Hc & content & m & Hfs & Hs & Hn)|[(Hc & Hcut & rest & Hn)|(Hc & Hcut & Hn)]];
    rewrite Hc in Hline |- *; rewrite Hn; cbn [apply_node].
  - assert (Hdiff : <[file_path := Node (Content (spliced content m)) None]> (fs w) !! file_path
                    <> fs w !! file_path).
    { rewrite lookup_insert_eq, Hfs. intros [= H]. by apply spliced_changes in H. }
    split_and!; try done. intros _. by exists content, m.
  - split_and!; try done.
    + intros _. right. split; [done|]. by exists rest.
    + by rewrite Hcut.
  - split_and!; try done. intros _. by left.
Qed.

Lemma X5_witness :
  exists updated w' line,
    add_dynamic_export_in (disk_full other_file 100) settings_route
      (one_file settings_route (Node (Content plain_route) None)) = (Return updated, w')
    /\ stdout w' = [] ++ [line]
    /\ (updated = true <-> line = msg_added settings_route)
    /\ (updated = true ->
        exists content m,
          fs (one_file settings_route (Node (Content plain_route) None)) !! settings_route
          = Some (Node (Content content) None)
          /\ search import_pattern content = Some m
          /\ fs w' = <[settings_route := Node (Content (spliced content m)) None]>
                       (fs (one_file settings_route (Node (Content plain_route) None)))
          /\ fs w' !! settings_route
             <> fs (one_file settings_route (Node (Content plain_route) None)) !! settings_route)
    /\ (updated = false ->
        fs w' = fs (one_file settings_route (Node (Content plain_route) None))
        \/ (cut_short (disk_full other_file 100)
              (one_file settings_route (Node (Content plain_route) None)) settings_route = true
            /\ exists rest,
                 fs w' = <[settings_route := Node rest None]>
                           (fs (one_file settings_route (Node (Content plain_route) None)))))
    /\ (cut_short (disk_full other_file 100)
          (one_file settings_route (Node (Content plain_route) None)) settings_route = false ->
        (updated = true <->
           fs w' !! settings_route
           <> fs (one_file settings_route (Node (Content plain_route) None)) !! settings_route)
        /\ (updated = false ->
            fs w' = fs (one_file settings_route (Node (Content plain_route) None)))).
Proof.
  apply (X5_return_value_and_file (disk_full other_file 100)
           (one_file settings_route (Node (Content plain_route) None)) settings_route).
  intros line. reflexivity.
Defined.

Lemma same_kind_refl n : same_kind n n.
Proof. split; [done|]. destruct (on_read n) as [c|msg]; [by exists c|done]. Qed.

Lemma effect_same_kind (n : node) (p : text) :
  same_kind n (default n (e_node (effect_of (Some n) p))).
Proof.
  destruct (e_node (effect_of (Some n) p)) as [n'|] eqn:Hn; [|apply same_kind_refl].
  unfold effect_of in Hn. repeat case_match; simplify_eq/=.
  split; [done|]. simpl. by eexists.
Qed.

Lemma effect_keeps_none (p : text) : e_node (effect_of None p) = None.
Proof. reflexivity. Qed.

(** X6: [main] neither creates nor deletes a file, and every file keeps its
    kind: a file that cannot be read is left as it is, a file that can be
    read can still be read, and whether a file can be written stays the
    same. *)
Theorem X6_files_keep_their_kind (w : world) :
  same_files w (main w).2 /\ dom (fs (main w).2) = dom (fs w).
Proof.
  destruct (main_effects w) as (w' & Hmain & _ & _ & Hfs). rewrite Hmain. cbn [snd].
  assert (Hsame : same_files w w').
  { intros q. rewrite (Hfs q). destruct (decide (q ∈ API_ROUTES)) as [_|_].
    - destruct (fs w !! q) as [n|] eqn:Hq.
      + pose proof (effect_same_kind n q) as Hk.
        by destruct (e_node (effect_of (Some n) q)).
      + done.
    - destruct (fs w !! q) as [n|]; [apply same_kind_refl|done]. }
  split; [done|]. apply set_eq. intros q. rewrite !elem_of_dom.
  specialize (Hsame q). by destruct (fs w !! q), (fs w' !! q).
Qed.

(** ** Further properties of [main] *)

Lemma lookup_alone (w : world) (q : text) :
  fs (alone w q).2 !! q = from_option Some (fs w !! q) (e_node (effect_of (fs w !! q) q)).
Proof.
  rewrite alone_effect. cbn [snd fs]. rewrite lookup_apply_node.
  by destruct (decide (q = q)).
Qed.

(** X7: the files are handled independently. After [main], a listed file is
    what the call on it alone makes of it in the files as they were before
    the run, and any other file is as it was; so what [main] makes of a
    listed file depends on that file only. *)
Theorem X7_routes_are_independent (w w2 : world) (q : text) :
  fs (main w).2 !! q
  = (if decide (q ∈ API_ROUTES) then fs (alone w q).2 !! q else fs w !! q)
  /\ (q ∈ API_ROUTES -> fs w !! q = fs w2 !! q ->
      fs (main w).2 !! q = fs (main w2).2 !! q).
Proof.
  destruct (main_effects w) as (w' & Hmain & _ & _ & Hfs).
  destruct (main_effects w2) as (w2' & Hmain2 & _ & _ & Hfs2).
  rewrite Hmain, Hmain2. cbn [snd]. split.
  - rewrite Hfs, lookup_alone. done.
  - intros Hq Heq. rewrite Hfs, Hfs2, Heq. done.
Qed.

Lemma X7_witness :
  fs (main sample_world).2 !! settings_route
  = fs (main (one_file settings_route (Node (Content plain_route) None))).2 !! settings_route.
Proof.
  apply (X7_routes_are_independent sample_world
           (one_file settings_route (Node (Content plain_route) None)) settings_route).
  - apply (bool_decide_unpack _). vm_compute. reflexivity.
  - vm_compute. reflexivity.
Defined.

Lemma concat_map_singleton {A B} (f : A -> B) (l : list A) :
  List.concat (List.map (fun x => [f x]) l) = List.map f l.
Proof. induction l as [|x l IH]; simpl; [done|]. by rewrite IH. Qed.

Lemma effect_line_names_path (o : option node) (p : text) :
  exists pre suf, e_line (effect_of o p) = pre ++ p ++ suf.
Proof.
  unfold effect_of. repeat case_match; cbn [e_line];
    unfold msg_not_found, msg_error, msg_already, msg_not_applicable,
      msg_no_insertion_point, msg_added;
    match goal with
    | |- exists pre suf, ?a ++ ?b ++ ?c ++ p ++ ?d = _ =>
        exists (a ++ b ++ c), d; by rewrite <- !app_assoc
    end.
Qed.

(** X8: what [main] prints is the header, then for each route of
    [API_ROUTES], in the order of the list, the one line that the call on
    that route alone prints on the files as they were before the run, and
    last the summary with the number of routes whose call returns [True].
    Each of these lines names its route. *)
Theorem X8_log_is_header_lines_summary (w : world) :
  stdout (main w).2
  = stdout w ++ [header_line]
    ++ List.concat (List.map (fun p => stdout (alone w p).2) API_ROUTES)
    ++ [done_line (length (List.filter (fun p => returned_true (alone w p).1) API_ROUTES))]
  /\ Forall (fun p => exists pre suf, stdout (alone w p).2 = [pre ++ p ++ suf]) API_ROUTES.
Proof.
  destruct (main_effects w) as (w' & Hmain & Hout & _). rewrite Hmain. cbn [snd]. split.
  - rewrite Hout. do 2 f_equal.
    rewrite (List.map_ext (fun p => stdout (alone w p).2)
                          (fun p => [e_line (effect_of (fs w !! p) p)])).
    2: { intros p. by rewrite alone_effect. }
    rewrite concat_map_singleton. do 4 f_equal.
    apply List.filter_ext. intros p. rewrite alone_effect. cbn [fst returned_true].
    by destruct (e_updated _).
  - apply Forall_forall. intros p _. rewrite alone_effect. cbn [snd stdout].
    destruct (effect_line_names_path (fs w !! p) p) as (pre & suf & ->).
    by exists pre, suf.
Qed.

(** Putting a text in after a line feed keeps every substring that has no
    line feed. *)
Lemma splice_keeps_lines (A' B D needle : text) :
  LF ∉ needle ->
  contains needle ((A' ++ [LF]) ++ B) = true ->
  contains needle ((A' ++ [LF]) ++ D ++ B) = true.
Proof.
  intros Hlf H. destruct (contains_inv _ _ H) as (P & Q & Heq).
  rewrite <- app_assoc in Heq. cbn in Heq.
  destruct (split_occurrence LF needle _ _ _ _ Hlf Heq) as [[Q' ->]|(P' & -> & _)].
  - rewrite <- !app_assoc. apply contains_app.
  - replace ((A' ++ [LF]) ++ D ++ P' ++ needle ++ Q)
      with (((A' ++ [LF]) ++ D ++ P') ++ needle ++ Q) by (by rewrite <- !app_assoc).
    apply contains_app.
Qed.

Lemma updated_effect (o : option node) (p : text) :
  e_updated (effect_of o p) = true ->
  exists content m,
    o = Some (Node (Content content) None)
    /\ contains marker content = false
    /\ contains trigger content = true
    /\ search import_pattern content = Some m
    /\ e_node (effect_of o p) = Some (Node (Content (spliced content m)) None).
Proof.
  unfold effect_of. intros H. repeat case_match; simplify_eq/=.
  eexists _, _. split_and!; try done. by destruct (contains trigger _).
Qed.

Lemma spliced_keeps_lines (content : text) (m : match_obj) (needle : text) :
  search import_pattern content = Some m ->
  LF ∉ needle ->
  contains needle content = true ->
  contains needle (spliced content m) = true.
Proof.
  intros Hs Hlf Hin.
  destruct (import_pattern_match _ _ Hs)
    as (pre & ws & body & nls & decl & Hc & _ & _ & _ & _ & Hend).
  unfold spliced. rewrite Hend. rewrite Hc in Hin |- *.
  destruct (slice_at_app (pre ++ str "import" ++ ws ++ body ++ [LF]) (nls ++ decl)) as [-> ->].
  revert Hin.
  replace (pre ++ str "import" ++ ws ++ body ++ [LF])
    with ((pre ++ str "import" ++ ws ++ body) ++ [LF]) by (by rewrite <- !app_assoc).
  by apply splice_keeps_lines.
Qed.

(** X10: a call that returns [True] has made the text of the file 99
    characters longer, and every text without a line feed that occurred in
    the file still occurs in it: no line of the file is split or lost. *)
Theorem X10_success_keeps_every_line (w w' : world) (file_path : text) :
  add_dynamic_export file_path w = (Return true, w') ->
  exists old new,
    fs w !! file_path = Some (Node (Content old) None)
    /\ fs w' !! file_path = Some (Node (Content new) None)
    /\ length new = length old + 99
    /\ (forall needle, LF ∉ needle -> contains needle old = true -> contains needle new = true).
Proof.
  rewrite add_dynamic_export_effect. intros [= Hup <-].
  destruct (updated_effect _ _ Hup) as (content & m & Hfs & _ & _ & Hs & Hnode).
  exists content, (spliced content m). cbn [fs]. rewrite Hnode. cbn [apply_node].
  rewrite lookup_insert_eq. split_and!; try done.
  - rewrite length_spliced. reflexivity.
  - intros needle. by apply spliced_keeps_lines.
Qed.

Lemma X10_witness :
  exists old new,
    fs (one_file settings_route (Node (Content plain_route) None)) !! settings_route
    = Some (Node (Content old) None)
    /\ fs (add_dynamic_export settings_route
            (one_file settings_route (Node (Content plain_route) None))).2 !! settings_route
       = Some (Node (Content new) None)
    /\ length new = length old + 99
    /\ (forall needle, LF ∉ needle -> contains needle old = true -> contains needle new = true).
Proof.
  apply (X10_success_keeps_every_line
           (one_file settings_route (Node (Content plain_route) None))
           (add_dynamic_export settings_route
              (one_file settings_route (Node (Content plain_route) None))).2
           settings_route).
  vm_compute. reflexivity.
Defined.

Lemma LF_not_in_trigger : LF ∉ trigger.
Proof. apply (bool_decide_unpack _). vm_compute. reflexivity. Qed.

(** X9: after [main], every listed file that can be read and has the
    trigger, and that already had the marker or can be written and has an
    insertion point, has the marker and still has the trigger. *)
Theorem X9_listed_routes_end_with_marker
    (w : world) (q : text) (n : node) (content : text) :
  q ∈ API_ROUTES ->
  fs w !! q = Some n ->
  on_read n = Content content ->
  contains trigger content = true ->
  contains marker content = true
  \/ (on_write n = None /\ is_Some (search import_pattern content)) ->
  exists content',
    fs (main w).2 !! q = Some (Node (Content content') (on_write n))
    /\ contains marker content' = true
    /\ contains trigger content' = true.
Proof.
  intros Hq Hfs Hn Ht Hcase.
  destruct (main_effects w) as (w' & Hmain & _ & _ & Hfs'). rewrite Hmain. cbn [snd].
  rewrite Hfs', Hfs. destruct (decide (q ∈ API_ROUTES)) as [_|]; [|done].
  destruct n as [r o]. simpl in Hn. subst r. cbn [effect_of on_write].
  destruct (contains marker content) eqn:Hm.
  { exists content. by split_and!. }
  destruct Hcase as [|[Ho [m Hs]]]; [done|]. simpl in Ho. subst o.
  rewrite Ht, Hs. cbn [negb e_node from_option on_write].
  exists (spliced content m). split_and!; [done|apply spliced_has_marker|].
  by apply spliced_keeps_lines; [|apply LF_not_in_trigger|].
Qed.

Lemma X9_witness :
  exists content',
    fs (main sample_world).2 !! settings_route = Some (Node (Content content') None)
    /\ contains marker content' = true
    /\ contains trigger content' = true.
Proof.
  apply (X9_listed_routes_end_with_marker sample_world settings_route
           (Node (Content plain_route) None) plain_route).
  - apply (bool_decide_unpack _). vm_compute. reflexivity.
  - vm_compute. reflexivity.
  - reflexivity.
  - vm_compute. reflexivity.
  - right. split; [reflexivity|]. exists plain_route_match. vm_compute. reflexivity.
Defined.

Lemma effect_opened (w : world) (p : text) :
  e_opened (effect_of (fs w !! p) p) = if attemptable w p then [p] else [].
Proof.
  unfold attemptable, effect_of.
  destruct (fs w !! p) as [[[content|msg] o]|]; [|done|done].
  destruct (contains marker content); [done|].
  destruct (contains trigger content); [|done].
  destruct (search import_pattern content); [|done].
  by destruct o.
Qed.

Lemma concat_map_filter {A} (f : A -> bool) (l : list A) :
  List.concat (List.map (fun x => if f x then [x] else []) l) = List.filter f l.
Proof.
  induction l as [|x l IH]; simpl; [done|]. rewrite IH. by destruct (f x).
Qed.

(** X11: a file is opened for writing only after every check has passed. A
    call opens its path for writing exactly when the file can be read, lacks
    the marker, has the trigger and has an insertion point; the paths that
    [main] opens for writing are the listed paths of that kind, each once,
    in the order of the list. *)
Theorem X11_opened_for_writing_after_checks (w : world) (file_path : text) :
  opened_w (add_dynamic_export file_path w).2
  = opened_w w ++ (if attemptable w file_path then [file_path] else [])
  /\ opened_w (main w).2 = opened_w w ++ List.filter (attemptable w) API_ROUTES.
Proof.
  split.
  - rewrite add_dynamic_export_effect. cbn [snd opened_w]. by rewrite effect_opened.
  - destruct (main_effects w) as (w' & Hmain & _ & Hlog & _). rewrite Hmain. cbn [snd].
    rewrite Hlog. f_equal.
    rewrite (List.map_ext (fun p => e_opened (effect_of (fs w !! p) p))
                          (fun p => if attemptable w p then [p] else [])).
    + apply concat_map_filter.
    + intros p. apply effect_opened.
Qed.
